(** * DECtalkBridge: a shallow embedding of [Shared/DECtalkBridge.c]

    The bridge turns the callback-driven DECtalk engine into synchronous
    calls.  This development embeds, from the C source,

    - the SSML extractor [dectalk_extract_text_from_ssml] (module [Ssml]),
    - the session, voice, rate and synthesis entry points together with
      the fill callback [ttsCallback] (module [Bridge]),

    and proves the properties the design document states about them.

    The DECtalk engine itself ([dectalk/dtk/ttsapi.h]) is third-party
    code behind the boundary: every answer it gives is an argument of
    the embedded function, and every call made to it is appended to a
    trace, so that the theorems hold for whatever the engine answers.
    The model is sequential: the mutex, which every entry point takes
    and releases on each of its paths, is left out.

    Layout: the embedding ([C], [Ssml], [Bridge]), the statements and
    the second description of the scan ([SsmlSpec], [BridgeSpec]), then
    the proofs ([CFacts], [BridgeFacts], [SsmlFacts]). *)

From Stdlib Require Import ZArith Lia Bool Ascii String.
From stdpp Require Import base tactics option list gmap.

Open Scope Z_scope.

(** ** C data: fixed-width integers and NUL-terminated strings *)

Module C.

Definition INT32_MIN : Z := - 2 ^ 31.
Definition INT32_MAX : Z := 2 ^ 31 - 1.

(** Conversion to [int32_t]: reduction modulo [2^32] into the signed range. *)
Definition int32 (z : Z) : Z := (z + 2 ^ 31) mod 2 ^ 32 - 2 ^ 31.

(** Conversion to [DWORD] (unsigned 32 bits). *)
Definition dword (z : Z) : Z := z mod 2 ^ 32.

Definition NUL : ascii := "000"%char.
Definition DQUOTE : ascii := ascii_of_nat 34.

(** A C string is the list of its characters; a pointer into it is the
    suffix it designates.  Reading at the end of the list reads the
    terminator. *)
Definition deref (p : list ascii) : ascii := hd NUL p.

Definition cstr (s : string) : list ascii := list_ascii_of_string s.

(** [strlen]: the characters before the first NUL. *)
Fixpoint strlen (p : list ascii) : nat :=
  match p with
  | [] => O
  | c :: r => if Ascii.eqb c NUL then O else S (strlen r)
  end.

(** [strncmp(a, b, n) == 0]: the comparison stops at the first
    difference, after [n] characters, or at a common terminator. *)
Fixpoint strncmp_eq (a b : list ascii) (n : nat) : bool :=
  match n with
  | O => true
  | S n' =>
      if Ascii.eqb (deref a) (deref b)
      then if Ascii.eqb (deref a) NUL then true
           else strncmp_eq (tl a) (tl b) n'
      else false
  end.

(** [strchr(p, c)]: offset of the first [c] in the string at [p], the
    terminator included; [None] is the null pointer. *)
Fixpoint strchr (p : list ascii) (c : ascii) : option nat :=
  match p with
  | [] => if Ascii.eqb c NUL then Some O else None
  | x :: r =>
      if Ascii.eqb x c then Some O
      else if Ascii.eqb x NUL then None
      else S <$> strchr r c
  end.

(** [isspace] and [isdigit] in the C locale. *)
Definition isspace (c : ascii) : bool :=
  let n := nat_of_ascii c in
  Nat.eqb n 32 || (Nat.leb 9 n && Nat.leb n 13).

Definition isdigit (c : ascii) : bool :=
  let n := nat_of_ascii c in
  Nat.leb 48 n && Nat.leb n 57.

Definition digit_val (c : ascii) : Z := Z.of_nat (nat_of_ascii c) - 48.

Fixpoint skip_space (p : list ascii) : list ascii :=
  match p with
  | c :: r => if isspace c then skip_space r else p
  | [] => []
  end.

Fixpoint scan_digits (acc : Z) (p : list ascii) : Z :=
  match p with
  | c :: r => if isdigit c then scan_digits (10 * acc + digit_val c) r else acc
  | [] => acc
  end.

(** [sscanf(p, "%d", &code) == 1]: white space is skipped, one sign is
    accepted, then at least one decimal digit is required; the
    conversion stops at the first character that is not a digit.  The
    result is [Some code] when the conversion succeeds.  (At its only
    call site at most five characters precede the ';', so the value
    fits an [int].) *)
Definition sscanf_d (p : list ascii) : option Z :=
  let p1 := skip_space p in
  let '(neg, p2) :=
    match p1 with
    | c :: r =>
        if Ascii.eqb c "-" then (true, r)
        else if Ascii.eqb c "+" then (false, r)
        else (false, p1)
    | [] => (false, p1)
    end in
  if isdigit (deref p2)
  then Some (if neg then - scan_digits 0 p2 else scan_digits 0 p2)
  else None.

End C.

(** ** The SSML extractor (DECtalkBridge.c, lines 328-420) *)

Module Ssml.
Import C.

(** The local variables of the scan.  [src] is the input pointer, kept
    as the number of characters it has advanced over [ssml]; [dst] is
    always [plainText + written], so the output buffer and [written]
    stand for it. *)
Record scan := Scan {
  src : nat;
  plainText : list ascii;
  written : Z;
  inTag : bool
}.

(** [*dst++ = c; written++; src += adv]. *)
Definition emit (c : ascii) (adv : nat) (st : scan) : scan :=
  {| src := src st + adv;
     plainText := <[Z.to_nat (written st) := c]> (plainText st);
     written := int32 (written st + 1);
     inTag := inTag st |}.

(** The chain of [strncmp] tests on a '&' (lines 354-409): the decoded
    character and the number of input characters consumed, or [None]
    when control falls through to the literal copy of line 412. *)
Definition entity (p : list ascii) : option (ascii * nat) :=
  if strncmp_eq p (cstr "&amp;") 5 then Some ("&"%char, 5%nat)
  else if strncmp_eq p (cstr "&lt;") 4 then Some ("<"%char, 4%nat)
  else if strncmp_eq p (cstr "&gt;") 4 then Some (">"%char, 4%nat)
  else if strncmp_eq p (cstr "&quot;") 6 then Some (DQUOTE, 6%nat)
  else if strncmp_eq p (cstr "&apos;") 6 then Some ("'"%char, 6%nat)
  else if strncmp_eq p (cstr "&#91;") 5 then Some ("["%char, 5%nat)
  else if strncmp_eq p (cstr "&#93;") 5 then Some ("]"%char, 5%nat)
  else if strncmp_eq p (cstr "&#58;") 5 then Some (":"%char, 5%nat)
  else if Ascii.eqb (deref p) "&" && Ascii.eqb (deref (tl p)) "#" then
    match strchr p ";" with
    | Some semi =>
        if (semi <? 8)%nat then
          match sscanf_d (tl (tl p)) with
          | Some code =>
              if (0 <? code) && (code <? 256)
              then Some (ascii_of_nat (Z.to_nat code), S semi)
              else None
          | None => None
          end
        else None
    | None => None
    end
  else None.

(** The loop test of line 338. *)
Definition loop_cond (ssml : list ascii) (maxLength : Z) (st : scan) : bool :=
  negb (Ascii.eqb (deref (drop (src st) ssml)) NUL)
  && (written st <? int32 (maxLength - 1)).

(** One iteration of the loop body (lines 339-415). *)
Definition loop_body (ssml : list ascii) (st : scan) : scan :=
  let p := drop (src st) ssml in
  let c := deref p in
  if Ascii.eqb c "<" then
    {| src := S (src st); plainText := plainText st;
       written := written st; inTag := true |}
  else if Ascii.eqb c ">" then
    {| src := S (src st); plainText := plainText st;
       written := written st; inTag := false |}
  else if negb (inTag st) then
    match (if Ascii.eqb c "&" then entity p else None) with
    | Some (ch, adv) => emit ch adv st
    | None => emit c 1 st
    end
  else
    {| src := S (src st); plainText := plainText st;
       written := written st; inTag := inTag st |}.

(** The [while] loop, bounded by [fuel] iterations; [None] when the
    bound is reached before the loop test fails. *)
Fixpoint ssml_loop (fuel : nat) (ssml : list ascii) (maxLength : Z)
    (st : scan) : option scan :=
  if loop_cond ssml maxLength st then
    match fuel with
    | O => None
    | S fuel' => ssml_loop fuel' ssml maxLength (loop_body ssml st)
    end
  else Some st.

(** [dectalk_extract_text_from_ssml].  A pointer argument is [None]
    when null; [plainText] carries the contents of the caller's array.
    The result is the returned [int] and the final contents of the
    array.  The loop is given one iteration per input character. *)
Definition dectalk_extract_text_from_ssml (ssml plainText : option (list ascii))
    (maxLength : Z) : option (Z * option (list ascii)) :=
  match ssml, plainText with
  | Some s, Some buf =>
      if maxLength <=? 0 then Some (0, plainText)
      else
        let st0 := {| src := O; plainText := buf; written := 0; inTag := false |} in
        match ssml_loop (length s) s maxLength st0 with
        | Some st =>
            Some (written st,
                  Some (<[Z.to_nat (written st) := NUL]> (Ssml.plainText st)))
        | None => None
        end
  | _, _ => Some (0, plainText)
  end.

(** The C string held in an array: its characters up to the first NUL. *)
Fixpoint string_of (buf : list ascii) : list ascii :=
  match buf with
  | [] => []
  | c :: r => if Ascii.eqb c NUL then [] else c :: string_of r
  end.

(** Extraction into a fresh array of [maxLength] characters, read back
    as a string. *)
Definition extract (maxLength : nat) (s : string) : option string :=
  match dectalk_extract_text_from_ssml (Some (cstr s))
          (Some (replicate maxLength "x"%char)) (Z.of_nat maxLength) with
  | Some (_, Some out) => Some (string_of_list_ascii (string_of out))
  | _ => None
  end.

End Ssml.


(** ** The scan as the design document words it

    A second description of the extractor, by recursion on the input
    text instead of pointers and an output array.  It is written from
    the document (section 4.4) and is what the embedding above is
    compared with.  The two places where the document and the source
    part ways are parameters. *)

Module SsmlSpec.
Import C.

(** The table of recognised entities, in the order of the document. *)
Definition named_entities : list (string * ascii) :=
  [("&amp;"%string, "&"%char); ("&lt;"%string, "<"%char);
   ("&gt;"%string, ">"%char); ("&quot;"%string, DQUOTE);
   ("&apos;"%string, "'"%char); ("&#91;"%string, "["%char);
   ("&#93;"%string, "]"%char); ("&#58;"%string, ":"%char)].

Fixpoint starts_with (lit p : list ascii) : bool :=
  match lit, p with
  | [], _ => true
  | a :: lit', b :: p' => Ascii.eqb a b && starts_with lit' p'
  | _ :: _, [] => false
  end.

Fixpoint named_entity (table : list (string * ascii)) (p : list ascii)
    : option (ascii * nat) :=
  match table with
  | [] => None
  | (lit, ch) :: table' =>
      if starts_with (cstr lit) p then Some (ch, length (cstr lit))
      else named_entity table' p
  end.

Fixpoint index_of (c : ascii) (p : list ascii) : option nat :=
  match p with
  | [] => None
  | x :: r => if Ascii.eqb x c then Some O else S <$> index_of c r
  end.

Fixpoint leading_digits (p : list ascii) : list ascii :=
  match p with
  | c :: r => if isdigit c then c :: leading_digits r else []
  | [] => []
  end.

(** [&#NNN;] read to the letter: decimal digits and nothing else between
    the '#' and the ';', the ';' among the first 8 characters, and
    [0 < NNN < 256]. *)
Definition strict_numeric (p : list ascii) : option (ascii * nat) :=
  match p with
  | a :: h :: r =>
      let ds := leading_digits r in
      let code := scan_digits 0 ds in
      if Ascii.eqb a "&" && Ascii.eqb h "#"
         && negb (Nat.eqb (length ds) 0)
         && Ascii.eqb (deref (drop (length ds) r)) ";"
         && (2 + length ds <? 8)%nat
         && (0 <? code) && (code <? 256)
      then Some (ascii_of_nat (Z.to_nat code), (3 + length ds)%nat)
      else None
  | _ => None
  end.

(** The numeric entity as the source reads it: the first ';' is among
    the first 8 characters, and a [%d] conversion of what follows the
    '#' (white space, a sign, digits; the rest up to the ';' ignored)
    gives a code with [0 < code < 256]. *)
Definition lenient_numeric (p : list ascii) : option (ascii * nat) :=
  match p with
  | a :: h :: r =>
      if Ascii.eqb a "&" && Ascii.eqb h "#" then
        match index_of ";" p with
        | Some semi =>
            match sscanf_d r with
            | Some code =>
                if (semi <? 8)%nat && (0 <? code) && (code <? 256)
                then Some (ascii_of_nat (Z.to_nat code), S semi)
                else None
            | None => None
            end
        | None => None
        end
      else None
  | _ => None
  end.

Definition decode (numeric : list ascii -> option (ascii * nat)) (p : list ascii)
    : option (ascii * nat) :=
  match named_entity named_entities p with
  | Some r => Some r
  | None => numeric p
  end.

Section Scan.

(** How a numeric entity is read, and whether a '>' met outside a tag
    is text (copied) or markup (dropped). *)
Variable numeric : list ascii -> option (ascii * nat).
Variable gt_is_text : bool.

(** [skip] characters of an entity already decoded remain to be passed
    over. *)
Fixpoint scan_text (skip : nat) (inTag : bool) (s : list ascii) : list ascii :=
  match s with
  | [] => []
  | c :: rest =>
      match skip with
      | S k => scan_text k inTag rest
      | O =>
          if Ascii.eqb c "<" then scan_text O true rest
          else if Ascii.eqb c ">" then
            if inTag || negb gt_is_text then scan_text O false rest
            else c :: scan_text O false rest
          else if inTag then scan_text O true rest
          else
            match decode numeric s with
            | Some (ch, len) => ch :: scan_text (pred len) false rest
            | None => c :: scan_text O false rest
            end
      end
  end.

End Scan.

(** The claim of the document. *)
Definition spec_extract (s : list ascii) : list ascii :=
  scan_text strict_numeric true O false s.

(** The same with the two readings of the source. *)
Definition source_extract (s : list ascii) : list ascii :=
  scan_text lenient_numeric false O false s.

(** The scan has stored the characters [e] so far: they start the
    output array, the rest of the array is as the caller passed it, and
    [written] counts them. *)
Definition stored (buf : list ascii) (maxLength : Z) (e : list ascii)
    (st : Ssml.scan) : Prop :=
  Ssml.plainText st = e ++ drop (length e) buf /\
  Ssml.written st = Z.of_nat (length e) /\
  Z.of_nat (length e) <= maxLength - 1 /\
  Forall (fun c => c <> NUL) e.

(** The extractor's result for the text [reading ssml]: its first
    [maxLength - 1] characters and a terminator are stored at the start
    of the array, and their number is returned. *)
Definition extracts (reading : list ascii -> list ascii) (ssml buf : list ascii)
    (maxLength : Z) : Prop :=
  let text := take (Z.to_nat (maxLength - 1)) (reading ssml) in
  Ssml.dectalk_extract_text_from_ssml (Some ssml) (Some buf) maxLength
    = Some (Z.of_nat (length text),
            Some (text ++ NUL :: drop (S (length text)) buf)).

End SsmlSpec.

(** ** Session, capture protocol and synthesis (DECtalkBridge.c, lines 18-303, 463-481) *)

Module Bridge.
Import C.

Definition BUFFER_SIZE : Z := 32768.
Definition NUM_BUFFERS : nat := 4.

(** [DECtalkVoice] and [DECtalkError] of DECtalkBridge.h.  A voice is
    passed around as the integer the enumeration stands for. *)
Definition DECtalkVoicePaul : Z := 0.
Definition DECtalkVoiceCount : Z := 9.

Inductive DECtalkError :=
| DECtalkErrorNone
| DECtalkErrorInitFailed
| DECtalkErrorSynthFailed
| DECtalkErrorInvalidVoice
| DECtalkErrorBufferFull.

Definition error_code (e : DECtalkError) : Z :=
  match e with
  | DECtalkErrorNone => 0
  | DECtalkErrorInitFailed => 1
  | DECtalkErrorSynthFailed => 2
  | DECtalkErrorInvalidVoice => 3
  | DECtalkErrorBufferFull => 4
  end.

Definition g_voiceCommands : list string :=
  ["[:np]"; "[:nb]"; "[:nh]"; "[:nf]"; "[:nd]"; "[:nk]"; "[:nu]"; "[:nr]"; "[:nw]"]%string.

(** *** The engine boundary

    Result and message codes of ttsapi.h: only the one value the bridge
    tests for is distinguished. *)
Inductive MMRESULT :=
| MMSYSERR_NOERROR
| MMSYSERR_OTHER (code : nat).

Inductive TTS_MSG :=
| TTS_MSG_BUFFER
| TTS_MSG_OTHER (code : nat).

Definition is_noerror (r : MMRESULT) : bool :=
  match r with MMSYSERR_NOERROR => true | MMSYSERR_OTHER _ => false end.

(** An engine handle or a caller's array is known by its address; a null
    pointer is [None]. *)
Definition LPTTS_HANDLE_T := nat.
Definition addr := nat.

(** A chunk of the pool, [TTS_BUFFER_T]: [lpData] is the row of
    [g_bufferData] it points to.  The phoneme and index-mark fields stay
    null and zero and are left out. *)
Record TTS_BUFFER_T := {
  lpData : option nat;
  dwBufferLength : Z;
  dwMaximumBufferLength : Z
}.

(** A chunk handed back by the engine: [pBuf] is its place in the pool,
    [filledLength] the [dwBufferLength] the engine stored in it and
    [bytes] what the engine wrote to its data area. *)
Record Filled := {
  pBuf : nat;
  filledLength : Z;
  bytes : list Byte.byte
}.

(** One invocation of the callback by the engine: the message and
    [lParam2], null or a chunk. *)
Record Notification := {
  uiMsg : TTS_MSG;
  lParam2 : option Filled
}.

(** The calls the bridge makes to the engine. *)
Inductive EngineCall :=
| TextToSpeechStartupExFonix
| TextToSpeechShutdown (h : option LPTTS_HANDLE_T)
| TextToSpeechOpenInMemory (h : option LPTTS_HANDLE_T)
| TextToSpeechCloseInMemory (h : option LPTTS_HANDLE_T)
| TextToSpeechAddBuffer (h : option LPTTS_HANDLE_T) (chunk : nat)
| TextToSpeechSetSpeaker (h : option LPTTS_HANDLE_T) (speaker : Z)
| TextToSpeechSpeak (h : option LPTTS_HANDLE_T) (text : list ascii)
| TextToSpeechSync (h : option LPTTS_HANDLE_T)
| TextToSpeechReturnBuffer (h : option LPTTS_HANDLE_T)
| TextToSpeechSetRate (h : option LPTTS_HANDLE_T) (rate : Z)
| TextToSpeechGetRate (h : option LPTTS_HANDLE_T).

(** *** The state: the file-scope variables of lines 25-38, the
    callers' sample arrays (as bytes, by address), and the calls the
    engine has received. *)
Record World := {
  g_ttsHandle : option LPTTS_HANDLE_T;
  g_currentVoice : Z;
  g_initialized : bool;
  g_inMemoryOpen : bool;
  g_outputBuffer : option addr;
  g_outputBufferSize : Z;
  g_outputSamplesWritten : Z;
  g_ttsBuffers : list TTS_BUFFER_T;
  heap : gmap addr (list Byte.byte);
  trace : list EngineCall
}.

Definition zero_chunk : TTS_BUFFER_T :=
  {| lpData := None; dwBufferLength := 0; dwMaximumBufferLength := 0 |}.

(** The state the initialisers of lines 25-38 give. *)
Definition startup_world : World :=
  {| g_ttsHandle := None; g_currentVoice := DECtalkVoicePaul;
     g_initialized := false; g_inMemoryOpen := false;
     g_outputBuffer := None; g_outputBufferSize := 0;
     g_outputSamplesWritten := 0;
     g_ttsBuffers := replicate NUM_BUFFERS zero_chunk;
     heap := ∅; trace := [] |}.

Definition set_ttsHandle (h : option LPTTS_HANDLE_T) (w : World) : World :=
  {| g_ttsHandle := h; g_currentVoice := g_currentVoice w;
     g_initialized := g_initialized w; g_inMemoryOpen := g_inMemoryOpen w;
     g_outputBuffer := g_outputBuffer w; g_outputBufferSize := g_outputBufferSize w;
     g_outputSamplesWritten := g_outputSamplesWritten w;
     g_ttsBuffers := g_ttsBuffers w; heap := heap w;
     trace := trace w |}.

Definition set_currentVoice (v : Z) (w : World) : World :=
  {| g_ttsHandle := g_ttsHandle w; g_currentVoice := v;
     g_initialized := g_initialized w; g_inMemoryOpen := g_inMemoryOpen w;
     g_outputBuffer := g_outputBuffer w; g_outputBufferSize := g_outputBufferSize w;
     g_outputSamplesWritten := g_outputSamplesWritten w;
     g_ttsBuffers := g_ttsBuffers w; heap := heap w;
     trace := trace w |}.

Definition set_initialized (b : bool) (w : World) : World :=
  {| g_ttsHandle := g_ttsHandle w; g_currentVoice := g_currentVoice w;
     g_initialized := b; g_inMemoryOpen := g_inMemoryOpen w;
     g_outputBuffer := g_outputBuffer w; g_outputBufferSize := g_outputBufferSize w;
     g_outputSamplesWritten := g_outputSamplesWritten w;
     g_ttsBuffers := g_ttsBuffers w; heap := heap w;
     trace := trace w |}.

Definition set_inMemoryOpen (b : bool) (w : World) : World :=
  {| g_ttsHandle := g_ttsHandle w; g_currentVoice := g_currentVoice w;
     g_initialized := g_initialized w; g_inMemoryOpen := b;
     g_outputBuffer := g_outputBuffer w; g_outputBufferSize := g_outputBufferSize w;
     g_outputSamplesWritten := g_outputSamplesWritten w;
     g_ttsBuffers := g_ttsBuffers w; heap := heap w;
     trace := trace w |}.

(** Lines 226-228: the three variables of the output sink. *)
Definition set_output (buffer : option addr) (size written : Z) (w : World) : World :=
  {| g_ttsHandle := g_ttsHandle w; g_currentVoice := g_currentVoice w;
     g_initialized := g_initialized w; g_inMemoryOpen := g_inMemoryOpen w;
     g_outputBuffer := buffer; g_outputBufferSize := size;
     g_outputSamplesWritten := written;
     g_ttsBuffers := g_ttsBuffers w; heap := heap w;
     trace := trace w |}.

Definition set_ttsBuffers (bs : list TTS_BUFFER_T) (w : World) : World :=
  {| g_ttsHandle := g_ttsHandle w; g_currentVoice := g_currentVoice w;
     g_initialized := g_initialized w; g_inMemoryOpen := g_inMemoryOpen w;
     g_outputBuffer := g_outputBuffer w; g_outputBufferSize := g_outputBufferSize w;
     g_outputSamplesWritten := g_outputSamplesWritten w;
     g_ttsBuffers := bs; heap := heap w;
     trace := trace w |}.

Definition set_heap (m : gmap addr (list Byte.byte)) (w : World) : World :=
  {| g_ttsHandle := g_ttsHandle w; g_currentVoice := g_currentVoice w;
     g_initialized := g_initialized w; g_inMemoryOpen := g_inMemoryOpen w;
     g_outputBuffer := g_outputBuffer w; g_outputBufferSize := g_outputBufferSize w;
     g_outputSamplesWritten := g_outputSamplesWritten w;
     g_ttsBuffers := g_ttsBuffers w; heap := m;
     trace := trace w |}.

(** The bridge calls the engine: the call joins the trace. *)
Definition call (c : EngineCall) (w : World) : World :=
  {| g_ttsHandle := g_ttsHandle w; g_currentVoice := g_currentVoice w;
     g_initialized := g_initialized w; g_inMemoryOpen := g_inMemoryOpen w;
     g_outputBuffer := g_outputBuffer w; g_outputBufferSize := g_outputBufferSize w;
     g_outputSamplesWritten := g_outputSamplesWritten w;
     g_ttsBuffers := g_ttsBuffers w; heap := heap w;
     trace := trace w ++ [c] |}.


Definition set_outputSamplesWritten (n : Z) (w : World) : World :=
  set_output (g_outputBuffer w) (g_outputBufferSize w) n w.

Definition non_null {A : Type} (p : option A) : bool :=
  match p with Some _ => true | None => false end.

(** [g_initialized && g_ttsHandle]. *)
Definition live (w : World) : bool :=
  g_initialized w && non_null (g_ttsHandle w).

Definition set_length (n : Z) (b : TTS_BUFFER_T) : TTS_BUFFER_T :=
  {| lpData := lpData b; dwBufferLength := n;
     dwMaximumBufferLength := dwMaximumBufferLength b |}.

(** [chunk->dwBufferLength = n] for a chunk of the pool. *)
Definition store_length (i : nat) (n : Z) (w : World) : World :=
  set_ttsBuffers (alter (set_length n) i (g_ttsBuffers w)) w.

(** The engine stores the filled length in the chunk it hands over. *)
Definition engine_fill (f : Filled) (w : World) : World :=
  store_length (pBuf f) (filledLength f) w.

(** [memcpy(dst + off, src, n)] on byte arrays. *)
Definition memcpy (off : nat) (src : list Byte.byte) (n : nat)
    (dst : list Byte.byte) : list Byte.byte :=
  take off dst ++ take n src ++ drop (off + n) dst.

(** *** The capture protocol *)

(** The clamped copy, written twice in the source with the same text:
    lines 72-84 in the callback and lines 280-292 in the drain loop.  A
    sample is two bytes.  [g_outputBuffer] is not null at either place;
    a copy to an address that holds no array (undefined in C) stores
    nothing here. *)
Definition copy_samples (f : Filled) (w : World) : World :=
  let samplesToWrite := int32 (filledLength f / 2) in
  let remainingSpace := int32 (g_outputBufferSize w - g_outputSamplesWritten w) in
  let samplesToWrite :=
    if remainingSpace <? samplesToWrite then remainingSpace else samplesToWrite in
  if 0 <? samplesToWrite then
    let w1 :=
      match g_outputBuffer w with
      | Some a =>
          set_heap (alter (memcpy (Z.to_nat (2 * g_outputSamplesWritten w))
                                  (bytes f)
                                  (Z.to_nat (2 * samplesToWrite))) a (heap w)) w
      | None => w
      end in
    set_outputSamplesWritten (int32 (g_outputSamplesWritten w + samplesToWrite)) w1
  else w.

(** [ttsCallback] (lines 66-91). *)
Definition ttsCallback (lParam2 : option Filled) (uiMsg : TTS_MSG) (w : World) : World :=
  match uiMsg with
  | TTS_MSG_BUFFER =>
      match lParam2 with
      | Some f =>
          if (0 <? filledLength f) && non_null (g_outputBuffer w) then
            let w1 := copy_samples f w in
            call (TextToSpeechAddBuffer (g_ttsHandle w1) (pBuf f))
                 (store_length (pBuf f) 0 w1)
          else w
      | None => w
      end
  | TTS_MSG_OTHER _ => w
  end.

(** The engine fills a chunk, if it passes one, and invokes the callback. *)
Definition notify (w : World) (n : Notification) : World :=
  ttsCallback (lParam2 n) (uiMsg n)
    (match lParam2 n with Some f => engine_fill f w | None => w end).

(** The body of the drain loop (lines 279-294). *)
Definition drain_body (f : Filled) (w : World) : World :=
  if 0 <? filledLength f then copy_samples f w else w.

(** The drain loop (lines 277-295), over the engine's answers to the
    successive [TextToSpeechReturnBuffer] calls: a result and the
    pointer it stores.  The loop ends at the first answer that is not a
    success with a chunk; when the answers run out the engine has
    nothing left to return. *)
Fixpoint drain (answers : list (MMRESULT * option Filled)) (w : World) : World :=
  let w1 := call (TextToSpeechReturnBuffer (g_ttsHandle w)) w in
  match answers with
  | (MMSYSERR_NOERROR, Some f) :: rest => drain rest (drain_body f (engine_fill f w1))
  | _ => w1
  end.

(** *** Session *)

Definition fresh_chunk (i : nat) : TTS_BUFFER_T :=
  {| lpData := Some i; dwBufferLength := 0; dwMaximumBufferLength := BUFFER_SIZE |}.

(** [dectalk_init] (lines 127-172).  [startup] is the engine's answer to
    [TextToSpeechStartupExFonix]: its result and the handle it stores.
    The dictionary path only travels to the engine.  The mutex is taken
    and released on every path and is left out. *)
Definition dectalk_init (startup : MMRESULT * option LPTTS_HANDLE_T) (w : World)
    : DECtalkError * World :=
  if g_initialized w then (DECtalkErrorNone, w)
  else
    let w1 := set_ttsBuffers (map fresh_chunk (seq 0 NUM_BUFFERS)) w in
    let w2 := set_ttsHandle (snd startup) (call TextToSpeechStartupExFonix w1) in
    if is_noerror (fst startup)
    then (DECtalkErrorNone, set_currentVoice DECtalkVoicePaul (set_initialized true w2))
    else (DECtalkErrorInitFailed, w2).

(** [dectalk_shutdown] (lines 174-188). *)
Definition dectalk_shutdown (w : World) : World :=
  if live w then
    let w1 :=
      if g_inMemoryOpen w
      then set_inMemoryOpen false (call (TextToSpeechCloseInMemory (g_ttsHandle w)) w)
      else w in
    set_initialized false
      (set_ttsHandle None (call (TextToSpeechShutdown (g_ttsHandle w1)) w1))
  else w.

(** [dectalk_set_voice] (lines 190-202). *)
Definition dectalk_set_voice (voice : Z) (w : World) : DECtalkError * World :=
  if (voice <? 0) || (DECtalkVoiceCount <=? voice) then (DECtalkErrorInvalidVoice, w)
  else
    let w1 := set_currentVoice voice w in
    (DECtalkErrorNone,
     if live w1 then call (TextToSpeechSetSpeaker (g_ttsHandle w1) voice) w1 else w1).

(** [dectalk_get_voice] (lines 204-206). *)
Definition dectalk_get_voice (w : World) : Z := g_currentVoice w.

(** [dectalk_set_rate] (lines 463-471).  [answer] is the result of
    [TextToSpeechSetRate]. *)
Definition dectalk_set_rate (answer : MMRESULT) (wpm : Z) (w : World) : Z * World :=
  if live w then
    let wpm := if wpm <? 75 then 75 else wpm in
    let wpm := if 600 <? wpm then 600 else wpm in
    (if is_noerror answer then 0 else -1,
     call (TextToSpeechSetRate (g_ttsHandle w) (dword wpm)) w)
  else (-1, w).

(** [dectalk_get_rate] (lines 473-481).  [answer] is the result of
    [TextToSpeechGetRate] and [reported] the [DWORD] found in [rate]
    after the call. *)
Definition dectalk_get_rate (answer : MMRESULT) (reported : Z) (w : World) : Z * World :=
  if live w then
    let w1 := call (TextToSpeechGetRate (g_ttsHandle w)) w in
    if is_noerror answer then (int32 reported, w1) else (180, w1)
  else (180, w).

(** [clamp(wpm, 75, 600)]. *)
Definition clamp_rate (wpm : Z) : Z := Z.max 75 (Z.min wpm 600).

(** *** Synthesis *)

(** What the engine and the allocator answer during one call of
    [dectalk_synthesize]. *)
Record EngineAnswers := {
  startup : MMRESULT * option LPTTS_HANDLE_T;
  open_in_memory : MMRESULT;
  malloc_ok : bool;
  speak : MMRESULT;
  speak_notifications : list Notification;
  sync_notifications : list Notification;
  return_buffer : list (MMRESULT * option Filled)
}.

(** Lines 242-245. *)
Definition requeue (w : World) (i : nat) : World :=
  call (TextToSpeechAddBuffer (g_ttsHandle w) i) (store_length i 0 w).

(** [g_voiceCommands[g_currentVoice]]; the index is always a voice of
    the table, since only [dectalk_set_voice] and [dectalk_init] assign it. *)
Definition voice_command (voice : Z) : list ascii :=
  cstr (default ""%string (g_voiceCommands !! Z.to_nat voice)).

(** Lines 209-263 of [dectalk_synthesize]: everything before the text is
    submitted.  The result is the error returned, or the state and the
    text about to be spoken. *)
Definition synthesize_setup (eng : EngineAnswers) (text : option (list ascii))
    (buffer : option addr) (bufferSize : Z) (samplesWritten : option Z)
    (w : World) : DECtalkError * World + World * list ascii :=
  let '(result, w1) :=
    if g_initialized w then (DECtalkErrorNone, w) else dectalk_init (startup eng) w in
  match result with
  | DECtalkErrorNone =>
      match text, buffer, samplesWritten with
      | Some txt, Some _, Some _ =>
          let w2 := set_output buffer bufferSize 0 w1 in
          let opened :=
            if g_inMemoryOpen w2 then inr w2
            else
              let w3 := call (TextToSpeechOpenInMemory (g_ttsHandle w2)) w2 in
              if is_noerror (open_in_memory eng)
              then inr (set_inMemoryOpen true w3)
              else inl (DECtalkErrorSynthFailed, w3) in
          match opened with
          | inl e => inl e
          | inr w4 =>
              let w5 := fold_left requeue (seq 0 NUM_BUFFERS) w4 in
              let w6 := call (TextToSpeechSetSpeaker (g_ttsHandle w5) (g_currentVoice w5)) w5 in
              if malloc_ok eng
              then inr (w6, voice_command (g_currentVoice w6) ++ take (strlen txt) txt)
              else inl (DECtalkErrorSynthFailed, w6)
          end
      | _, _, _ => inl (DECtalkErrorSynthFailed, w1)
      end
  | _ => inl (result, w1)
  end.

(** Lines 264-303: submission, the wait, the drain and the store through
    [samplesWritten].  The callback runs inside [TextToSpeechSpeak] and
    [TextToSpeechSync]. *)
Definition synthesize_run (eng : EngineAnswers) (fullText : list ascii)
    (samplesWritten : option Z) (w : World) : DECtalkError * option Z * World :=
  let w1 := call (TextToSpeechSpeak (g_ttsHandle w) fullText) w in
  let w2 := fold_left notify (speak_notifications eng) w1 in
  if is_noerror (speak eng) then
    let w3 := call (TextToSpeechSync (g_ttsHandle w2)) w2 in
    let w4 := fold_left notify (sync_notifications eng) w3 in
    let w5 := drain (return_buffer eng) w4 in
    (DECtalkErrorNone, Some (g_outputSamplesWritten w5), w5)
  else (DECtalkErrorSynthFailed, samplesWritten, w2).

(** [dectalk_synthesize] (lines 208-303).  [samplesWritten] is the
    caller's cell: [None] for a null pointer, otherwise its contents;
    the result carries the contents after the call. *)
Definition dectalk_synthesize (eng : EngineAnswers) (text : option (list ascii))
    (buffer : option addr) (bufferSize : Z) (samplesWritten : option Z)
    (w : World) : DECtalkError * option Z * World :=
  match synthesize_setup eng text buffer bufferSize samplesWritten w with
  | inl (e, w1) => (e, samplesWritten, w1)
  | inr (w1, fullText) => synthesize_run eng fullText samplesWritten w1
  end.

End Bridge.

(** ** Statements about the bridge, and the inputs the examples run on *)

Module BridgeSpec.
Import C Bridge.

(** One step of the capture protocol: the engine notifies the callback,
    or the drain loop takes a chunk the engine returns. *)
Inductive CaptureStep :=
| Notified (n : Notification)
| Drained (f : Filled).

Definition capture_step (w : World) (s : CaptureStep) : World :=
  match s with
  | Notified n => notify w n
  | Drained f => drain_body f (engine_fill f w)
  end.

(** A fill notification for chunk [f]. *)
Definition fill (f : Filled) : CaptureStep :=
  Notified {| uiMsg := TTS_MSG_BUFFER; lParam2 := Some f |}.

(** The sink is installed over the array at [a], which holds
    [g_outputBufferSize] samples, and the count is within it. *)
Definition sink_ok (a : addr) (arr : list Byte.byte) (w : World) : Prop :=
  g_outputBuffer w = Some a /\ heap w !! a = Some arr /\
  Z.of_nat (length arr) = 2 * g_outputBufferSize w /\
  0 <= g_outputSamplesWritten w <= g_outputBufferSize w /\
  g_outputBufferSize w <= INT32_MAX.

(** The count is inside the capacity, and the capacity an [int32_t]. *)
Definition within (w : World) : Prop :=
  0 <= g_outputSamplesWritten w <= g_outputBufferSize w /\
  g_outputBufferSize w <= INT32_MAX.

(** What the engine may put in a chunk: a [DWORD] length and that many
    bytes of data. *)
Definition chunk_ok (f : Filled) : Prop :=
  0 <= filledLength f < 2 ^ 32 /\ filledLength f <= Z.of_nat (length (bytes f)).

(** The number of samples a step must copy. *)
Definition clamp_samples (f : Filled) (w : World) : Z :=
  Z.min (filledLength f / 2) (g_outputBufferSize w - g_outputSamplesWritten w).

(** The outcome the document promises for [dectalk_synthesize] called
    with a cell holding [before]. *)
Definition synthesize_contract (eng : EngineAnswers) (text : option (list ascii))
    (buffer : option addr) (bufferSize before : Z) (w : World) : Prop :=
  let '(result, after, _) :=
    dectalk_synthesize eng text buffer bufferSize (Some before) w in
  (result = DECtalkErrorNone /\
   exists n, after = Some n /\ 0 <= n <= bufferSize) \/
  ((result = DECtalkErrorInitFailed \/ result = DECtalkErrorSynthFailed) /\
   after = Some before).

(** An engine that starts, accepts everything and produces no audio. *)
Definition silent_engine : EngineAnswers :=
  {| startup := (MMSYSERR_NOERROR, Some 1%nat);
     open_in_memory := MMSYSERR_NOERROR;
     malloc_ok := true;
     speak := MMSYSERR_NOERROR;
     speak_notifications := [];
     sync_notifications := [];
     return_buffer := [] |}.

Definition six_bytes : Filled :=
  {| pBuf := 0%nat; filledLength := 6;
     bytes := [Byte.x01; Byte.x00; Byte.x02; Byte.x00; Byte.x03; Byte.x00] |}.

(** An engine that fills chunk 0 with three samples while speaking and
    hands three more back to the drain loop. *)
Definition talking_engine : EngineAnswers :=
  {| startup := (MMSYSERR_NOERROR, Some 1%nat);
     open_in_memory := MMSYSERR_NOERROR;
     malloc_ok := true;
     speak := MMSYSERR_NOERROR;
     speak_notifications := [ {| uiMsg := TTS_MSG_BUFFER; lParam2 := Some six_bytes |} ];
     sync_notifications := [];
     return_buffer := [ (MMSYSERR_NOERROR, Some six_bytes) ] |}.

(** A caller's array of four samples at address 0. *)
Definition caller_world : World :=
  set_heap {[ 0%nat := replicate 8 Byte.x00 ]} startup_world.

(** A live session with the sink installed over that array. *)
Definition capturing_world : World :=
  set_output (Some 0%nat) 4 0
    (set_initialized true (set_ttsHandle (Some 1%nat) caller_world)).

End BridgeSpec.

(** * Properties *)

(** ** Fixed-width arithmetic *)

Module CFacts.
Import C.

Lemma int32_id (z : Z) : INT32_MIN <= z <= INT32_MAX -> int32 z = z.
Proof.
  unfold int32, INT32_MIN, INT32_MAX. intros H.
  rewrite Z.mod_small; lia.
Qed.

Lemma int32_range (z : Z) : INT32_MIN <= int32 z <= INT32_MAX.
Proof.
  unfold int32, INT32_MIN, INT32_MAX.
  pose proof (Z.mod_pos_bound (z + 2 ^ 31) (2 ^ 32) ltac:(lia)). lia.
Qed.

Lemma dword_id (z : Z) : 0 <= z < 2 ^ 32 -> dword z = z.
Proof. unfold dword. intros H. apply Z.mod_small. lia. Qed.

End CFacts.

(** ** Session, voice and rate *)

Module BridgeFacts.
Import C CFacts Bridge BridgeSpec.

Ltac world := unfold set_outputSamplesWritten, store_length, engine_fill,
  set_output, set_ttsHandle, set_currentVoice, set_initialized,
  set_inMemoryOpen, set_ttsBuffers, set_heap, call in *;
  simpl in *.

(** C4.  A voice outside [0, DECtalkVoiceCount) is refused with
    [DECtalkErrorInvalidVoice] and nothing changes, so [dectalk_get_voice]
    answers as before; a voice inside the range is accepted with
    [DECtalkErrorNone] and [dectalk_get_voice] then answers it, whatever
    the state of the session. *)
Theorem dectalk_set_voice_spec (voice : Z) (w : World) :
  (voice < 0 \/ DECtalkVoiceCount <= voice ->
     dectalk_set_voice voice w = (DECtalkErrorInvalidVoice, w) /\
     dectalk_get_voice (snd (dectalk_set_voice voice w)) = dectalk_get_voice w) /\
  (0 <= voice < DECtalkVoiceCount ->
     fst (dectalk_set_voice voice w) = DECtalkErrorNone /\
     dectalk_get_voice (snd (dectalk_set_voice voice w)) = voice).
Proof.
  unfold dectalk_set_voice, dectalk_get_voice. split; intros H.
  - replace ((voice <? 0) || (DECtalkVoiceCount <=? voice)) with true; [done|].
    symmetry. apply orb_true_iff. destruct H; [left | right]; lia.
  - replace ((voice <? 0) || (DECtalkVoiceCount <=? voice)) with false.
    + simpl. split; [done|]. by destruct (live _).
    + symmetry. apply orb_false_iff. split; lia.
Qed.

Lemma dectalk_set_voice_spec_witness :
  (dectalk_set_voice 9 startup_world = (DECtalkErrorInvalidVoice, startup_world) /\
   dectalk_get_voice (snd (dectalk_set_voice 9 startup_world)) = 0) /\
  (fst (dectalk_set_voice 8 capturing_world) = DECtalkErrorNone /\
   dectalk_get_voice (snd (dectalk_set_voice 8 capturing_world)) = 8).
Proof.
  split.
  - apply (dectalk_set_voice_spec 9 startup_world). right. unfold DECtalkVoiceCount. lia.
  - apply (dectalk_set_voice_spec 8 capturing_world). unfold DECtalkVoiceCount. lia.
Defined.

Lemma live_shutdown (w : World) : live (dectalk_shutdown w) = false.
Proof.
  unfold dectalk_shutdown. destruct (live w) eqn:E; [|done].
  by unfold live.
Qed.

(** C5.  [dectalk_init] on an initialised session returns
    [DECtalkErrorNone] and changes nothing; [dectalk_shutdown] on a
    session that is not initialised changes nothing, a second
    [dectalk_shutdown] in a row changes nothing, and in particular sends
    no further [TextToSpeechShutdown] to the engine. *)
Theorem lifecycle_idempotent (startup : MMRESULT * option LPTTS_HANDLE_T) (w : World) :
  (g_initialized w = true -> dectalk_init startup w = (DECtalkErrorNone, w)) /\
  (g_initialized w = false -> dectalk_shutdown w = w) /\
  dectalk_shutdown (dectalk_shutdown w) = dectalk_shutdown w /\
  trace (dectalk_shutdown (dectalk_shutdown w)) = trace (dectalk_shutdown w).
Proof.
  assert (Hnot : forall w', live w' = false -> dectalk_shutdown w' = w').
  { intros w' H. unfold dectalk_shutdown. by rewrite H. }
  repeat split.
  - intros H. unfold dectalk_init. by rewrite H.
  - intros H. apply Hnot. unfold live. by rewrite H.
  - apply Hnot, live_shutdown.
  - f_equal. apply Hnot, live_shutdown.
Qed.

Lemma lifecycle_idempotent_witness :
  dectalk_init (MMSYSERR_NOERROR, Some 2%nat) capturing_world
    = (DECtalkErrorNone, capturing_world) /\
  dectalk_shutdown startup_world = startup_world.
Proof.
  pose proof (lifecycle_idempotent (MMSYSERR_NOERROR, Some 2%nat) capturing_world) as [H _].
  pose proof (lifecycle_idempotent (MMSYSERR_NOERROR, Some 2%nat) startup_world) as (_ & H' & _).
  split; [apply H | apply H']; reflexivity.
Defined.

Lemma clamp_rate_range (wpm : Z) : 75 <= clamp_rate wpm <= 600.
Proof. unfold clamp_rate. lia. Qed.

Lemma clamp_rate_source (wpm : Z) :
  (let wpm1 := if wpm <? 75 then 75 else wpm in
   if 600 <? wpm1 then 600 else wpm1) = clamp_rate wpm.
Proof.
  unfold clamp_rate. simpl.
  destruct (Z.ltb_spec wpm 75);
    [destruct (Z.ltb_spec 600 75) | destruct (Z.ltb_spec 600 wpm)]; lia.
Qed.

(** C6 as stated: after [dectalk_set_rate], an immediate
    [dectalk_get_rate] returns the clamped rate.  With a live session
    and an accepted rate it does not when [TextToSpeechGetRate] fails
    (line 480 returns 180), nor when the engine reports another rate
    than the one it was sent (line 477 returns what it reports). *)
Lemma rate_not_read_back :
  live capturing_world = true /\
  fst (dectalk_set_rate MMSYSERR_NOERROR 100 capturing_world) = 0 /\
  fst (dectalk_get_rate (MMSYSERR_OTHER 1) 0
         (snd (dectalk_set_rate MMSYSERR_NOERROR 100 capturing_world)))
    <> clamp_rate 100 /\
  fst (dectalk_get_rate MMSYSERR_NOERROR 180
         (snd (dectalk_set_rate MMSYSERR_NOERROR 100 capturing_world)))
    <> clamp_rate 100.
Proof.
  split; [reflexivity|]. split; [reflexivity|].
  split; vm_compute; intros H; discriminate H.
Qed.

(** C6, amended.  With a live session, [dectalk_set_rate wpm] sends the
    engine exactly [clamp(wpm, 75, 600)] and returns 0 or -1 as the
    engine accepts it or not; an immediate [dectalk_get_rate] returns
    the rate [TextToSpeechGetRate] reports, hence the clamped rate when
    the engine reports back the one it was sent, and 180 when that call
    fails.  With no live session [dectalk_set_rate] returns -1 and
    sends nothing, and [dectalk_get_rate] returns 180. *)
Theorem rate_roundtrip (wpm : Z) (w : World) (accepted answer : MMRESULT)
    (reported : Z) :
  (live w = true ->
     dectalk_set_rate accepted wpm w
       = (if is_noerror accepted then 0 else -1,
          call (TextToSpeechSetRate (g_ttsHandle w) (clamp_rate wpm)) w) /\
     75 <= clamp_rate wpm <= 600 /\
     (0 <= reported < 2 ^ 31 ->
      fst (dectalk_get_rate MMSYSERR_NOERROR reported
             (snd (dectalk_set_rate accepted wpm w))) = reported) /\
     (reported = clamp_rate wpm ->
      fst (dectalk_get_rate MMSYSERR_NOERROR reported
             (snd (dectalk_set_rate accepted wpm w))) = clamp_rate wpm) /\
     (is_noerror answer = false ->
      fst (dectalk_get_rate answer reported
             (snd (dectalk_set_rate accepted wpm w))) = 180)) /\
  (live w = false ->
     dectalk_set_rate accepted wpm w = (-1, w) /\
     fst (dectalk_get_rate answer reported w) = 180).
Proof.
  pose proof (clamp_rate_range wpm) as Hr.
  assert (Hd : dword (clamp_rate wpm) = clamp_rate wpm) by (apply dword_id; lia).
  unfold dectalk_set_rate, dectalk_get_rate. split; intros Hl; rewrite Hl; [|done].
  rewrite clamp_rate_source, Hd. simpl.
  replace (live _) with true by (symmetry; exact Hl). simpl.
  split; [done|]. split; [done|]. split; [|split].
  - intros Hrep. apply int32_id. unfold INT32_MIN, INT32_MAX. lia.
  - intros ->. apply int32_id. unfold INT32_MIN, INT32_MAX. lia.
  - intros ->. done.
Qed.

Lemma rate_roundtrip_witness :
  fst (dectalk_get_rate MMSYSERR_NOERROR 600
         (snd (dectalk_set_rate MMSYSERR_NOERROR 1000 capturing_world))) = 600 /\
  fst (dectalk_get_rate (MMSYSERR_OTHER 1) 600
         (snd (dectalk_set_rate MMSYSERR_NOERROR 1000 capturing_world))) = 180 /\
  fst (dectalk_get_rate MMSYSERR_NOERROR 600 startup_world) = 180.
Proof.
  split; [|split].
  - pose proof (rate_roundtrip 1000 capturing_world MMSYSERR_NOERROR
                  MMSYSERR_NOERROR 600) as [H _].
    destruct (H eq_refl) as (_ & _ & _ & H' & _). apply H'. reflexivity.
  - pose proof (rate_roundtrip 1000 capturing_world MMSYSERR_NOERROR
                  (MMSYSERR_OTHER 1) 600) as [H _].
    destruct (H eq_refl) as (_ & _ & _ & _ & H'). apply H'. reflexivity.
  - pose proof (rate_roundtrip 1000 startup_world MMSYSERR_NOERROR
                  MMSYSERR_NOERROR 600) as [_ H].
    destruct (H eq_refl) as [_ H']. exact H'.
Defined.

(** ** The capture protocol *)

Lemma copy_samples_frame (f : Filled) (w : World) :
  g_outputBuffer (copy_samples f w) = g_outputBuffer w /\
  g_outputBufferSize (copy_samples f w) = g_outputBufferSize w /\
  g_ttsBuffers (copy_samples f w) = g_ttsBuffers w /\
  g_ttsHandle (copy_samples f w) = g_ttsHandle w /\
  trace (copy_samples f w) = trace w.
Proof.
  unfold copy_samples.
  destruct (0 <? _); [|done].
  destruct (g_outputBuffer w) eqn:E; world; by rewrite ?E.
Qed.

Lemma copy_samples_within (f : Filled) (w : World) :
  within w -> within (copy_samples f w).
Proof.
  unfold within. intros [Hw Hs].
  destruct (copy_samples_frame f w) as (_ & -> & _).
  split; [|done]. unfold copy_samples.
  pose proof (int32_range (filledLength f / 2)) as Hr.
  rewrite (int32_id (g_outputBufferSize w - g_outputSamplesWritten w))
    by (unfold INT32_MIN, INT32_MAX in *; lia).
  set (n := int32 (filledLength f / 2)) in *.
  set (r := g_outputBufferSize w - g_outputSamplesWritten w).
  set (k := if r <? n then r else n).
  assert (Hk : k <= r) by (subst k; destruct (Z.ltb_spec r n); lia).
  destruct (Z.ltb_spec 0 k); [|done].
  assert (Hi : int32 (g_outputSamplesWritten w + k) = g_outputSamplesWritten w + k)
    by (apply int32_id; unfold INT32_MIN, INT32_MAX in *; lia).
  destruct (g_outputBuffer w); world; rewrite Hi; lia.
Qed.

Lemma memcpy_nothing (off : nat) (src dst : list Byte.byte) :
  take off dst ++ take 0 src ++ drop (off + 0) dst = dst.
Proof. simpl. rewrite Nat.add_0_r. apply take_drop. Qed.

Lemma memcpy_length (off n : nat) (src dst : list Byte.byte) :
  (n <= length src)%nat -> (off + n <= length dst)%nat ->
  length (take off dst ++ take n src ++ drop (off + n) dst) = length dst.
Proof.
  intros H1 H2.
  rewrite !length_app, !length_take, length_drop. lia.
Qed.

(** What one clamped copy does to a well-formed sink: the array keeps
    what precedes the place of the count, receives there the first
    samples of the chunk, as many as the clamp allows, and keeps what
    follows them. *)
Lemma copy_samples_exact (a : addr) (arr : list Byte.byte) (f : Filled) (w : World) :
  sink_ok a arr w -> chunk_ok f ->
  g_outputSamplesWritten (copy_samples f w)
    = g_outputSamplesWritten w + clamp_samples f w /\
  heap (copy_samples f w) !! a
    = Some (take (Z.to_nat (2 * g_outputSamplesWritten w)) arr
            ++ take (Z.to_nat (2 * clamp_samples f w)) (bytes f)
            ++ drop (Z.to_nat (2 * g_outputSamplesWritten w)
                     + Z.to_nat (2 * clamp_samples f w)) arr) /\
  length (take (Z.to_nat (2 * g_outputSamplesWritten w)) arr
          ++ take (Z.to_nat (2 * clamp_samples f w)) (bytes f)
          ++ drop (Z.to_nat (2 * g_outputSamplesWritten w)
                   + Z.to_nat (2 * clamp_samples f w)) arr) = length arr /\
  0 <= clamp_samples f w.
Proof.
  intros (Ha & Harr & Hlen & Hw & Hs) (Hf & Hb).
  assert (Hhalf : 0 <= filledLength f / 2 < 2 ^ 31).
  { split; [apply Z.div_pos; lia | apply Z.div_lt_upper_bound; lia]. }
  assert (Hmul : 2 * (filledLength f / 2) <= filledLength f).
  { apply Z.mul_div_le. lia. }
  unfold copy_samples, clamp_samples.
  rewrite (int32_id (filledLength f / 2)) by (unfold INT32_MIN, INT32_MAX; lia).
  rewrite (int32_id (g_outputBufferSize w - g_outputSamplesWritten w))
    by (unfold INT32_MIN, INT32_MAX in *; lia).
  set (n := filledLength f / 2) in *.
  set (r := g_outputBufferSize w - g_outputSamplesWritten w).
  replace (if r <? n then r else n) with (Z.min n r)
    by (destruct (Z.ltb_spec r n); lia).
  set (k := Z.min n r).
  assert (Hk : 0 <= k <= r /\ k <= n) by (subst k r; lia).
  assert (Hin : length (take (Z.to_nat (2 * g_outputSamplesWritten w)) arr
                        ++ take (Z.to_nat (2 * k)) (bytes f)
                        ++ drop (Z.to_nat (2 * g_outputSamplesWritten w)
                                 + Z.to_nat (2 * k)) arr) = length arr).
  { apply memcpy_length; subst r; lia. }
  destruct (Z.ltb_spec 0 k) as [Hpos | Hzero].
  - rewrite Ha. world.
    rewrite int32_id by (unfold INT32_MIN, INT32_MAX in *; subst r; lia).
    rewrite lookup_alter_eq, Harr. unfold memcpy. simpl.
    split; [lia|]. split; [done|]. split; [done | lia].
  - replace k with 0 in * by lia. change (Z.to_nat (2 * 0)) with 0%nat in *.
    rewrite memcpy_nothing in *. rewrite Harr.
    split; [lia|]. split; [done|]. split; [done | lia].
Qed.

Lemma ttsCallback_within (p : option Filled) (m : TTS_MSG) (w : World) :
  within w -> within (ttsCallback p m w).
Proof.
  intros H. unfold ttsCallback.
  destruct m; [|done]. destruct p as [f|]; [|done].
  destruct (_ && _); [|done].
  apply (copy_samples_within f) in H. exact H.
Qed.

Lemma capture_step_within (w : World) (s : CaptureStep) :
  within w -> within (capture_step w s).
Proof.
  intros H. destruct s as [n | f]; simpl.
  - unfold notify. apply ttsCallback_within. by destruct (lParam2 n).
  - unfold drain_body. destruct (0 <? _); [|done].
    by apply copy_samples_within.
Qed.

Lemma capture_steps_within (steps : list CaptureStep) (w : World) :
  within w -> within (fold_left capture_step steps w).
Proof.
  revert w. induction steps as [|s steps IH]; intros w H; simpl; [done|].
  apply IH. by apply capture_step_within.
Qed.

Lemma capture_step_size (w : World) (s : CaptureStep) :
  g_outputBufferSize (capture_step w s) = g_outputBufferSize w /\
  g_outputBuffer (capture_step w s) = g_outputBuffer w.
Proof.
  destruct s as [[m p] | f]; simpl.
  - unfold notify, ttsCallback. simpl.
    destruct m; destruct p as [f|]; try done.
    destruct (_ && _); [|done].
    unfold call, store_length, set_ttsBuffers. simpl.
    destruct (copy_samples_frame f (engine_fill f w)) as (-> & -> & _). done.
  - unfold drain_body. destruct (0 <? _); [|done].
    destruct (copy_samples_frame f (engine_fill f w)) as (-> & -> & _). done.
Qed.

Lemma capture_steps_size (steps : list CaptureStep) (w : World) :
  g_outputBufferSize (fold_left capture_step steps w) = g_outputBufferSize w /\
  g_outputBuffer (fold_left capture_step steps w) = g_outputBuffer w.
Proof.
  revert w. induction steps as [|s steps IH]; intros w; simpl; [done|].
  destruct (IH (capture_step w s)) as [-> ->]. apply capture_step_size.
Qed.

Lemma set_length_twice (n m : Z) (i : nat) (bs : list TTS_BUFFER_T) :
  alter (set_length n) i (alter (set_length m) i bs) = alter (set_length n) i bs.
Proof.
  rewrite list_alter_alter_eq. apply list_alter_ext; [|done].
  by intros [] _.
Qed.

(** C2.  A step of the capture protocol on a sink installed over an
    array of [g_outputBufferSize] samples copies exactly
    [min(filled length, capacity - written)] samples: afterwards the
    array holds what it held before the place of the count, then the
    first that many samples of the chunk, then what it held after them;
    it keeps its length, and the count advances by that amount.  With no
    capacity left nothing is copied.  The callback also clears the chunk
    and queues it again, the drain loop does not.  Hence from a count of
    0 and a capacity that is not negative, no sequence of notifications
    and drain iterations takes the count past the capacity. *)
Theorem capture_protocol :
  (forall (a : addr) (arr : list Byte.byte) (f : Filled) (w : World),
     sink_ok a arr w -> chunk_ok f ->
     let k := clamp_samples f w in
     let off := Z.to_nat (2 * g_outputSamplesWritten w) in
     let n := Z.to_nat (2 * k) in
     let copied := take off arr ++ take n (bytes f) ++ drop (off + n) arr in
     0 <= k /\
     k = Z.min (filledLength f / 2) (g_outputBufferSize w - g_outputSamplesWritten w) /\
     length (take n (bytes f)) = n /\
     (g_outputSamplesWritten w = g_outputBufferSize w -> k = 0 /\ copied = arr) /\
     length copied = length arr /\
     (let w' := capture_step w (fill f) in
      g_outputSamplesWritten w' = g_outputSamplesWritten w + k /\
      heap w' !! a = Some copied /\
      (0 < filledLength f ->
       trace w' = trace w ++ [TextToSpeechAddBuffer (g_ttsHandle w) (pBuf f)] /\
       g_ttsBuffers w' = alter (set_length 0) (pBuf f) (g_ttsBuffers w))) /\
     (let w' := capture_step w (Drained f) in
      g_outputSamplesWritten w' = g_outputSamplesWritten w + k /\
      heap w' !! a = Some copied /\
      trace w' = trace w)) /\
  (forall (steps : list CaptureStep) (w : World),
     g_outputSamplesWritten w = 0 -> 0 <= g_outputBufferSize w <= INT32_MAX ->
     0 <= g_outputSamplesWritten (fold_left capture_step steps w)
       <= g_outputBufferSize w).
Proof.
  split.
  - intros a arr f w Hsink Hchunk k off n copied.
    assert (Hsink' : sink_ok a arr (engine_fill f w)) by exact Hsink.
    destruct (copy_samples_exact a arr f _ Hsink' Hchunk) as (Hw & Hh & Hl & Hk).
    destruct (copy_samples_frame f (engine_fill f w)) as (_ & _ & Hb & Hhd & Ht).
    change (clamp_samples f (engine_fill f w)) with k in *.
    change (g_outputSamplesWritten (engine_fill f w))
      with (g_outputSamplesWritten w) in *.
    fold off in Hh, Hl. fold n in Hh, Hl. fold copied in Hh, Hl.
    destruct Hsink as (Ha & Harr & Hlen & Hin & Hs). destruct Hchunk as (Hf & Hby).
    pose proof (Z.div_pos (filledLength f) 2 ltac:(lia) ltac:(lia)) as Hhalf.
    pose proof (Z.mul_div_le (filledLength f) 2 ltac:(lia)) as Hmul.
    assert (Hnone : k = 0 -> copied = arr).
    { intros Hk0. subst copied n. rewrite Hk0.
      change (Z.to_nat (2 * 0)) with 0%nat. apply memcpy_nothing. }
    assert (Hzero : filledLength f <= 0 -> k = 0 /\ copied = arr).
    { intros Hz. assert (k = 0) as Hk0.
      { subst k. unfold clamp_samples. replace (filledLength f) with 0 by lia.
        change (0 / 2) with 0. lia. }
      split; [done | by apply Hnone]. }
    split; [done|]. split; [done|].
    split; [apply length_take_le; subst n k; unfold clamp_samples; lia|].
    split; [|split; [done|split]].
    + intros Hfull. assert (k = 0) as Hk0.
      { subst k. unfold clamp_samples in *. lia. }
      split; [done | by apply Hnone].
    + simpl. unfold notify, ttsCallback. simpl. rewrite Ha. simpl.
      destruct (Z.ltb_spec 0 (filledLength f)) as [Hpos | Hnon]; simpl.
      * unfold call, store_length, set_ttsBuffers. simpl.
        rewrite Hw, Hh, Hb, Hhd, Ht. simpl.
        split; [done|]. split; [done|].
        intros _. split; [done|]. apply set_length_twice.
      * destruct (Hzero Hnon) as [-> ->]. simpl.
        split; [lia|]. split; [done | lia].
    + simpl. unfold drain_body.
      destruct (Z.ltb_spec 0 (filledLength f)) as [Hpos | Hnon].
      * rewrite Hw, Hh, Ht. done.
      * destruct (Hzero Hnon) as [-> ->]. simpl. split; [lia | done].
  - intros steps w H0 Hs.
    assert (Hin : within w) by (unfold within; lia).
    apply (capture_steps_within steps) in Hin. destruct Hin as [Hin _].
    destruct (capture_steps_size steps w) as [Hsz _]. rewrite Hsz in Hin. exact Hin.
Qed.

Lemma capture_protocol_witness :
  (g_outputSamplesWritten (capture_step capturing_world (fill six_bytes)) = 3 /\
   heap (capture_step capturing_world (fill six_bytes)) !! 0%nat
     = Some [Byte.x01; Byte.x00; Byte.x02; Byte.x00; Byte.x03; Byte.x00;
             Byte.x00; Byte.x00]) /\
  (g_outputSamplesWritten
     (capture_step (capture_step capturing_world (fill six_bytes)) (Drained six_bytes))
     = 4 /\
   heap (capture_step (capture_step capturing_world (fill six_bytes))
           (Drained six_bytes)) !! 0%nat
     = Some [Byte.x01; Byte.x00; Byte.x02; Byte.x00; Byte.x03; Byte.x00;
             Byte.x01; Byte.x00]) /\
  g_outputSamplesWritten
    (fold_left capture_step [fill six_bytes; Drained six_bytes; fill six_bytes]
       capturing_world) <= 4.
Proof.
  destruct capture_protocol as [Hstep Hall].
  assert (Hc : chunk_ok six_bytes).
  { unfold chunk_ok. simpl. lia. }
  split; [|split].
  - assert (Hs : sink_ok 0%nat (replicate 8 Byte.x00) capturing_world).
    { unfold sink_ok, INT32_MAX. simpl. repeat split; try reflexivity; lia. }
    destruct (Hstep _ _ _ _ Hs Hc) as (_ & _ & _ & _ & _ & (Hn & Hh & _) & _).
    split; [exact Hn | exact Hh].
  - assert (Hs : sink_ok 0%nat
                   [Byte.x01; Byte.x00; Byte.x02; Byte.x00; Byte.x03; Byte.x00;
                    Byte.x00; Byte.x00]
                   (capture_step capturing_world (fill six_bytes))).
    { unfold sink_ok.
      repeat split; try (vm_compute; reflexivity); vm_compute; intros H; discriminate H. }
    destruct (Hstep _ _ _ _ Hs Hc) as (_ & _ & _ & _ & _ & _ & (Hn & Hh & _)).
    split; [exact Hn | exact Hh].
  - assert (H0 : g_outputSamplesWritten capturing_world = 0) by reflexivity.
    assert (Hcap : 0 <= g_outputBufferSize capturing_world <= INT32_MAX).
    { unfold INT32_MAX. simpl. lia. }
    apply (Hall [fill six_bytes; Drained six_bytes; fill six_bytes] _ H0 Hcap).
Defined.

(** ** Synthesis *)

Lemma notifications_are_steps (ns : list Notification) (w : World) :
  fold_left notify ns w = fold_left capture_step (map Notified ns) w.
Proof. revert w. induction ns as [|n ns IH]; intros w; simpl; [done | apply IH]. Qed.

(** The drain loop keeps the sink where it is and the count inside it. *)
Lemma drain_sink (answers : list (MMRESULT * option Filled)) (w : World) :
  g_outputBuffer (drain answers w) = g_outputBuffer w /\
  g_outputBufferSize (drain answers w) = g_outputBufferSize w /\
  (within w -> within (drain answers w)).
Proof.
  revert w. induction answers as [|[r p] answers IH]; intros w; simpl; [done|].
  destruct r; [|done]. destruct p as [f|]; [|done].
  set (w1 := call _ w).
  destruct (IH (drain_body f (engine_fill f w1))) as (-> & -> & Hin).
  destruct (capture_step_size w1 (Drained f)) as [Hsz Hbuf]. simpl in Hsz, Hbuf.
  rewrite Hsz, Hbuf. split; [done|]. split; [done|].
  intros Hw. apply Hin. apply (capture_step_within w1 (Drained f)). exact Hw.
Qed.

Lemma requeue_sink (l : list nat) (w : World) :
  g_outputBuffer (fold_left requeue l w) = g_outputBuffer w /\
  g_outputBufferSize (fold_left requeue l w) = g_outputBufferSize w /\
  g_outputSamplesWritten (fold_left requeue l w) = g_outputSamplesWritten w.
Proof.
  revert w. induction l as [|i l IH]; intros w; simpl; [done|].
  destruct (IH (requeue w i)) as (-> & -> & ->). done.
Qed.

(** What the part of [dectalk_synthesize] before submission leaves: an
    error of the taxonomy, or the sink installed over the caller's array
    with nothing written. *)
Lemma synthesize_setup_outcome (eng : EngineAnswers) (text : option (list ascii))
    (buffer : option addr) (bufferSize : Z) (cell : option Z) (w : World) :
  match synthesize_setup eng text buffer bufferSize cell w with
  | inl (e, _) => e = DECtalkErrorInitFailed \/ e = DECtalkErrorSynthFailed
  | inr (w1, _) =>
      is_Some buffer /\ g_outputBuffer w1 = buffer /\
      g_outputBufferSize w1 = bufferSize /\ g_outputSamplesWritten w1 = 0
  end.
Proof.
  unfold synthesize_setup.
  destruct (if g_initialized w then _ else _) as [r w1] eqn:E.
  assert (Hinit : r = DECtalkErrorNone \/ r = DECtalkErrorInitFailed).
  { revert E. unfold dectalk_init. destruct (g_initialized w); simpl.
    - intros [= <- _]. by left.
    - destruct (is_noerror _); intros [= <- _]; [by left | by right]. }
  destruct Hinit as [-> | ->]; [|by left].
  destruct text as [txt|]; [|by right].
  destruct buffer as [a|]; [|by right].
  destruct cell as [c|]; [|by right].
  set (w2 := set_output (Some a) bufferSize 0 w1).
  assert (Hqueued : forall w3 : World,
            g_outputBuffer w3 = Some a -> g_outputBufferSize w3 = bufferSize ->
            g_outputSamplesWritten w3 = 0 ->
            forall w5 : World,
            g_outputBuffer w5 = g_outputBuffer w3 /\
            g_outputBufferSize w5 = g_outputBufferSize w3 /\
            g_outputSamplesWritten w5 = g_outputSamplesWritten w3 ->
            is_Some (Some a) /\
            g_outputBuffer (call (TextToSpeechSetSpeaker (g_ttsHandle w5)
                                    (g_currentVoice w5)) w5) = Some a /\
            g_outputBufferSize (call (TextToSpeechSetSpeaker (g_ttsHandle w5)
                                        (g_currentVoice w5)) w5) = bufferSize /\
            g_outputSamplesWritten (call (TextToSpeechSetSpeaker (g_ttsHandle w5)
                                            (g_currentVoice w5)) w5) = 0).
  { intros w3 Hb3 Hs3 Hn3 w5 (Hb & Hs & Hn).
    split; [by eexists|]. unfold call.
    cbn [g_outputBuffer g_outputBufferSize g_outputSamplesWritten].
    rewrite Hb, Hs, Hn. done. }
  destruct (g_inMemoryOpen w2).
  - destruct (malloc_ok eng); [|by right].
    pose proof (requeue_sink (seq 0 NUM_BUFFERS) w2) as Hq.
    revert Hq. generalize (fold_left requeue (seq 0 NUM_BUFFERS) w2).
    intros w5 Hq. exact (Hqueued w2 eq_refl eq_refl eq_refl w5 Hq).
  - destruct (is_noerror (open_in_memory eng)); [|by right].
    destruct (malloc_ok eng); [|by right].
    set (w3 := set_inMemoryOpen true _).
    pose proof (requeue_sink (seq 0 NUM_BUFFERS) w3) as Hq.
    revert Hq. generalize (fold_left requeue (seq 0 NUM_BUFFERS) w3).
    intros w5 Hq. exact (Hqueued w3 eq_refl eq_refl eq_refl w5 Hq).
Qed.

(** What submission, wait and drain leave: a count inside the capacity,
    stored through [samplesWritten], the sink still in place; or
    [DECtalkErrorSynthFailed] and the caller's cell as it was. *)
Lemma synthesize_run_outcome (eng : EngineAnswers) (fullText : list ascii)
    (cell : option Z) (w : World) :
  let '(result, after, w') := synthesize_run eng fullText cell w in
  (result = DECtalkErrorNone /\
   after = Some (g_outputSamplesWritten w') /\
   g_outputBuffer w' = g_outputBuffer w /\
   g_outputBufferSize w' = g_outputBufferSize w /\
   (within w -> within w')) \/
  (result = DECtalkErrorSynthFailed /\ after = cell).
Proof.
  unfold synthesize_run.
  destruct (is_noerror (speak eng)); [left | by right].
  rewrite !notifications_are_steps.
  set (w1 := call _ w).
  set (w2 := fold_left capture_step (map Notified (speak_notifications eng)) w1).
  set (w3 := call _ w2).
  set (w4 := fold_left capture_step (map Notified (sync_notifications eng)) w3).
  destruct (drain_sink (return_buffer eng) w4) as (Hb & Hs & Hin).
  destruct (capture_steps_size (map Notified (sync_notifications eng)) w3) as [Hs4 Hb4].
  destruct (capture_steps_size (map Notified (speak_notifications eng)) w1) as [Hs2 Hb2].
  split; [done|]. split; [done|].
  fold w4 in Hs4, Hb4. fold w2 in Hs2, Hb2.
  change (g_outputBuffer w3) with (g_outputBuffer w2) in Hb4.
  change (g_outputBufferSize w3) with (g_outputBufferSize w2) in Hs4.
  change (g_outputBuffer w1) with (g_outputBuffer w) in Hb2.
  change (g_outputBufferSize w1) with (g_outputBufferSize w) in Hs2.
  split; [congruence|]. split; [congruence|].
  intros Hw. apply Hin. apply capture_steps_within.
  change (within w2). apply capture_steps_within. exact Hw.
Qed.

(** C1 as stated, for every [bufferSize]: it fails on a negative one,
    where the call succeeds with a count of 0. *)
Lemma synthesize_contract_fails_on_negative_size :
  ~ synthesize_contract silent_engine (Some (cstr "hi")) (Some 0%nat) (-1) 7
      caller_world.
Proof.
  unfold synthesize_contract.
  replace (dectalk_synthesize silent_engine (Some (cstr "hi")) (Some 0%nat) (-1)
             (Some 7) caller_world)
    with (DECtalkErrorNone, Some 0,
          snd (dectalk_synthesize silent_engine (Some (cstr "hi")) (Some 0%nat) (-1)
                 (Some 7) caller_world))
    by (vm_compute; reflexivity).
  intros [(_ & n & [= <-] & Hn) | ([H | H] & _)]; [lia | discriminate | discriminate].
Qed.

(** C1, amended.  With [bufferSize >= 0], [dectalk_synthesize] either
    returns [DECtalkErrorNone] and stores a count between 0 and
    [bufferSize] through [samplesWritten], or returns
    [DECtalkErrorInitFailed] or [DECtalkErrorSynthFailed] and leaves the
    caller's cell as it was. *)
Theorem synthesize_outcome (eng : EngineAnswers) (text : option (list ascii))
    (buffer : option addr) (bufferSize before : Z) (w : World) :
  0 <= bufferSize <= INT32_MAX ->
  synthesize_contract eng text buffer bufferSize before w.
Proof.
  intros Hsize. unfold synthesize_contract, dectalk_synthesize.
  pose proof (synthesize_setup_outcome eng text buffer bufferSize (Some before) w) as Hsetup.
  destruct (synthesize_setup _ _ _ _ _ _) as [[e w1] | [w1 fullText]].
  - by right.
  - destruct Hsetup as (_ & _ & Hs & Hn).
    pose proof (synthesize_run_outcome eng fullText (Some before) w1) as Hrun.
    destruct (synthesize_run _ _ _ _) as [[result after] w'].
    destruct Hrun as [(-> & -> & _ & Hs' & Hin) | (-> & ->)].
    + left. split; [done|]. eexists. split; [done|].
      destruct Hin as [Hin _]; [unfold within; lia|].
      rewrite Hs', Hs in Hin. exact Hin.
    + right. split; [by right | done].
Qed.

Lemma synthesize_outcome_witness :
  synthesize_contract talking_engine (Some (cstr "hi")) (Some 0%nat) 4 7 caller_world.
Proof.
  apply (synthesize_outcome talking_engine (Some (cstr "hi")) (Some 0%nat) 4 7 caller_world).
  unfold INT32_MAX. lia.
Defined.

(** C9 as stated: no sink is active once the call has returned.  After
    a successful call [g_outputBuffer] still holds the caller's array. *)
Lemma sink_still_installed_after_return :
  fst (fst (dectalk_synthesize silent_engine (Some (cstr "hi")) (Some 0%nat) 4
              (Some 7) caller_world)) = DECtalkErrorNone /\
  g_outputBuffer (snd (dectalk_synthesize silent_engine (Some (cstr "hi")) (Some 0%nat) 4
                         (Some 7) caller_world)) <> None.
Proof. split; [vm_compute; reflexivity | vm_compute; discriminate]. Qed.

(** C9, amended.  In every call of [dectalk_synthesize] that reaches the
    submission of the text, the sink is installed by then over the
    caller's array, with its capacity and a count of 0; after the drain
    it is not cleared: when the call returns [DECtalkErrorNone],
    [g_outputBuffer] and [g_outputBufferSize] still describe the caller's
    array and [g_outputSamplesWritten] is the count handed back. *)
Theorem sink_installed_and_kept (eng : EngineAnswers) (text : option (list ascii))
    (buffer : option addr) (bufferSize : Z) (cell : option Z) (w : World) :
  (forall w1 fullText,
     synthesize_setup eng text buffer bufferSize cell w = inr (w1, fullText) ->
     is_Some buffer /\ g_outputBuffer w1 = buffer /\
     g_outputBufferSize w1 = bufferSize /\ g_outputSamplesWritten w1 = 0) /\
  (forall after w',
     dectalk_synthesize eng text buffer bufferSize cell w
       = (DECtalkErrorNone, after, w') ->
     is_Some buffer /\ g_outputBuffer w' = buffer /\
     g_outputBufferSize w' = bufferSize /\
     after = Some (g_outputSamplesWritten w')).
Proof.
  pose proof (synthesize_setup_outcome eng text buffer bufferSize cell w) as Hsetup.
  unfold dectalk_synthesize.
  destruct (synthesize_setup _ _ _ _ _ _) as [[e w1] | [w1 fullText]]; split.
  - intros ? ? [=].
  - intros after w' [= -> _ _]. by destruct Hsetup.
  - intros ? ? [= <- <-]. exact Hsetup.
  - intros after w' Hret. destruct Hsetup as (Hsome & Hb & Hs & _).
    pose proof (synthesize_run_outcome eng fullText cell w1) as Hrun.
    rewrite Hret in Hrun.
    destruct Hrun as [(_ & -> & Hb' & Hs' & _) | (H & _)]; [|discriminate].
    rewrite Hb', Hs'. done.
Qed.

Lemma sink_installed_and_kept_witness :
  g_outputBuffer (snd (dectalk_synthesize talking_engine (Some (cstr "hi")) (Some 0%nat) 4
                         (Some 7) caller_world)) = Some 0%nat.
Proof.
  pose proof (sink_installed_and_kept talking_engine (Some (cstr "hi")) (Some 0%nat) 4
                (Some 7) caller_world) as [_ H].
  destruct (dectalk_synthesize talking_engine (Some (cstr "hi")) (Some 0%nat) 4
              (Some 7) caller_world) as [[r after] w'] eqn:E.
  assert (Hr : r = DECtalkErrorNone).
  { apply (f_equal (fun x => fst (fst x))) in E. vm_compute in E. congruence. }
  subst r. destruct (H after w' eq_refl) as (_ & Hb & _). exact Hb.
Defined.

End BridgeFacts.

(** ** The SSML extractor *)

Module SsmlFacts.
Import C CFacts Ssml SsmlSpec.

(** C10.  With a null [ssml], a null [plainText] or [maxLength <= 0] the
    extractor returns 0 and leaves the output array exactly as it was:
    no character and no terminator is stored. *)
Theorem extract_guard (ssml plainText : option (list ascii)) (maxLength : Z) :
  ssml = None \/ plainText = None \/ maxLength <= 0 ->
  dectalk_extract_text_from_ssml ssml plainText maxLength = Some (0, plainText).
Proof.
  intros H. unfold dectalk_extract_text_from_ssml.
  destruct ssml as [s|]; [|done]. destruct plainText as [buf|]; [|done].
  destruct H as [H | [H | H]]; [done | done |].
  by replace (maxLength <=? 0) with true by (symmetry; apply Z.leb_le; lia).
Qed.

Lemma extract_guard_witness :
  dectalk_extract_text_from_ssml (Some (cstr "<a>b")) (Some (cstr "untouched")) 0
    = Some (0, Some (cstr "untouched")).
Proof.
  apply (extract_guard (Some (cstr "<a>b")) (Some (cstr "untouched")) 0).
  right. right. lia.
Defined.

(** *** Every iteration moves forward *)

Lemma ascii_of_code_not_nul (code : Z) :
  0 < code < 256 -> ascii_of_nat (Z.to_nat code) <> NUL.
Proof.
  intros H E. apply (f_equal nat_of_ascii) in E.
  rewrite nat_ascii_embedding in E by lia.
  change (nat_of_ascii NUL) with 0%nat in E. lia.
Qed.

(** A decoded entity is a character other than NUL and consumes at
    least one character of the input. *)
Lemma entity_advance (p : list ascii) (ch : ascii) (adv : nat) :
  entity p = Some (ch, adv) -> ch <> NUL /\ (1 <= adv)%nat.
Proof.
  unfold entity.
  repeat (destruct (strncmp_eq p _ _);
          [intros [= <- <-]; split; [discriminate | lia] |]).
  destruct (_ && _); [|done].
  destruct (strchr p ";") as [semi|]; [|done].
  destruct (semi <? 8)%nat; [|done].
  destruct (sscanf_d _) as [code|]; [|done].
  destruct (Z.ltb_spec 0 code); [|done].
  destruct (Z.ltb_spec code 256); [|done]. simpl.
  intros [= <- <-]. split; [apply ascii_of_code_not_nul; lia | lia].
Qed.

Lemma loop_cond_true (ssml : list ascii) (maxLength : Z) (st : scan) :
  loop_cond ssml maxLength st = true ->
  exists c rest, drop (src st) ssml = c :: rest /\ c <> NUL /\
                 written st < int32 (maxLength - 1).
Proof.
  unfold loop_cond. intros [Hc Hw]%andb_true_iff.
  apply negb_true_iff, Ascii.eqb_neq in Hc. apply Z.ltb_lt in Hw.
  destruct (drop (src st) ssml) as [|c rest]; [done|]. by exists c, rest.
Qed.

(** One iteration either stores nothing or stores one character that is
    not NUL; in both cases [src] moves forward. *)
Lemma loop_body_cases (ssml : list ascii) (maxLength : Z) (st : scan) :
  loop_cond ssml maxLength st = true ->
  (src st < length ssml)%nat /\
  (src st < src (loop_body ssml st))%nat /\
  ((plainText (loop_body ssml st) = plainText st /\
    written (loop_body ssml st) = written st) \/
   (exists ch adv, ch <> NUL /\ loop_body ssml st = emit ch adv st)).
Proof.
  intros (c & rest & Hp & Hc & _)%loop_cond_true.
  assert (Hlt : (src st < length ssml)%nat).
  { destruct (Nat.lt_ge_cases (src st) (length ssml)) as [|Hge]; [done|].
    by rewrite (drop_ge _ _ Hge) in Hp. }
  split; [done|]. unfold loop_body. rewrite Hp. simpl.
  destruct (Ascii.eqb c "<"); [simpl; split; [lia | by left]|].
  destruct (Ascii.eqb c ">"); [simpl; split; [lia | by left]|].
  destruct (inTag st); simpl; [split; [lia | by left]|].
  destruct (if Ascii.eqb c "&" then entity (c :: rest) else None)
    as [[ch adv]|] eqn:E.
  - destruct (Ascii.eqb c "&"); [|done].
    apply entity_advance in E as [Hch Hadv].
    simpl. split; [lia|]. right. by exists ch, adv.
  - simpl. split; [lia|]. right. by exists c, 1%nat.
Qed.

Lemma ssml_loop_terminates (ssml : list ascii) (maxLength : Z) (fuel : nat) (st : scan) :
  (length ssml - src st <= fuel)%nat ->
  is_Some (ssml_loop fuel ssml maxLength st).
Proof.
  revert st. induction fuel as [|fuel IH]; intros st Hfuel; simpl.
  - destruct (loop_cond ssml maxLength st) eqn:E; [|by eexists].
    apply loop_body_cases in E as (Hlt & _). lia.
  - destruct (loop_cond ssml maxLength st) eqn:E; [|by eexists].
    apply loop_body_cases in E as (Hlt & Hadv & _). apply IH. lia.
Qed.

(** C8.  Whenever the loop test holds there is input left and the
    iteration moves [src] forward by at least one character; in the
    branch that copies a '&' whose entity is not decoded it moves by
    exactly one.  So the loop ends within one iteration per input
    character, and the extractor returns for every input. *)
Theorem scan_advances_and_terminates (ssml : list ascii) (maxLength : Z) :
  (forall st, loop_cond ssml maxLength st = true ->
     (src st < length ssml)%nat /\ (src st < src (loop_body ssml st))%nat) /\
  (forall st, loop_cond ssml maxLength st = true ->
     deref (drop (src st) ssml) = "&"%char -> inTag st = false ->
     entity (drop (src st) ssml) = None ->
     loop_body ssml st = emit "&" 1 st /\ src (loop_body ssml st) = S (src st)) /\
  (forall fuel st, (length ssml - src st <= fuel)%nat ->
     is_Some (ssml_loop fuel ssml maxLength st)) /\
  (forall plainText,
     is_Some (dectalk_extract_text_from_ssml (Some ssml) plainText maxLength)).
Proof.
  split; [|split; [|split]].
  - intros st H. apply loop_body_cases in H as (? & ? & _). done.
  - intros st _ Hamp Htag Hent. unfold loop_body.
    rewrite Hamp, Htag, Hent. simpl. split; [done | lia].
  - intros fuel st. apply ssml_loop_terminates.
  - intros [buf|]; unfold dectalk_extract_text_from_ssml; [|by eexists].
    destruct (maxLength <=? 0); [by eexists|].
    match goal with
    | |- context [ssml_loop ?f ?s ?m ?st] =>
        destruct (ssml_loop_terminates s m f st) as [st' ->]; [simpl; lia|]
    end.
    by eexists.
Qed.

Lemma scan_advances_and_terminates_witness :
  is_Some (dectalk_extract_text_from_ssml (Some (cstr "X&#999;Y"))
             (Some (replicate 16 "x"%char)) 16) /\
  src (loop_body (cstr "X&#999;Y") (Scan 1 (replicate 16 "x"%char) 1 false)) = 2%nat.
Proof.
  destruct (scan_advances_and_terminates (cstr "X&#999;Y") 16) as (_ & Hamp & _ & Hret).
  split; [apply Hret|].
  apply (Hamp (Scan 1 (replicate 16 "x"%char) 1 false)); reflexivity.
Defined.

(** *** What is stored in the output array *)

Lemma store_at_end (buf e : list ascii) (ch : ascii) :
  (length e < length buf)%nat ->
  <[length e := ch]> (e ++ drop (length e) buf) = e ++ ch :: drop (S (length e)) buf.
Proof.
  intros Hlt. rewrite insert_app_r_alt by lia. rewrite Nat.sub_diag.
  destruct (lookup_lt_is_Some_2 buf (length e) Hlt) as [b Hb].
  by rewrite (drop_S _ _ _ Hb).
Qed.

Lemma stored_start (buf : list ascii) (maxLength : Z) :
  0 < maxLength ->
  stored buf maxLength [] {| src := 0; plainText := buf; written := 0; inTag := false |}.
Proof. intros H. unfold stored. simpl. rewrite drop_0. repeat split; [lia | done]. Qed.

(** Storing one more character keeps the picture. *)
Lemma stored_emit (buf : list ascii) (maxLength : Z) (e : list ascii) (st : scan)
    (ch : ascii) (adv : nat) :
  0 < maxLength <= INT32_MAX -> maxLength <= Z.of_nat (length buf) ->
  stored buf maxLength e st -> written st < int32 (maxLength - 1) -> ch <> NUL ->
  stored buf maxLength (e ++ [ch]) (emit ch adv st).
Proof.
  intros Hmax Hbuf (Hp & Hw & Hle & Hnul) Hlt Hch.
  rewrite int32_id in Hlt by (unfold INT32_MIN, INT32_MAX in *; lia).
  unfold stored, emit. simpl. rewrite Hp, Hw, Nat2Z.id, length_app. simpl.
  repeat split.
  - rewrite store_at_end by lia. rewrite <- app_assoc. simpl.
    by rewrite Nat.add_1_r.
  - rewrite int32_id by (unfold INT32_MIN, INT32_MAX in *; lia). lia.
  - lia.
  - apply Forall_app. split; [done|]. by apply Forall_singleton.
Qed.

(** Skipping input keeps it as well. *)
Lemma stored_skip (buf : list ascii) (maxLength : Z) (e : list ascii) (st st' : scan) :
  stored buf maxLength e st ->
  plainText st' = plainText st -> written st' = written st ->
  stored buf maxLength e st'.
Proof. unfold stored. intros (? & ? & ? & ?) -> ->. done. Qed.

Lemma ssml_loop_stored (ssml buf : list ascii) (maxLength : Z) (fuel : nat)
    (st : scan) (e : list ascii) :
  0 < maxLength <= INT32_MAX -> maxLength <= Z.of_nat (length buf) ->
  stored buf maxLength e st -> (length ssml - src st <= fuel)%nat ->
  exists st' e', ssml_loop fuel ssml maxLength st = Some st' /\
                 stored buf maxLength e' st'.
Proof.
  intros Hmax Hbuf. revert st e.
  induction fuel as [|fuel IH]; intros st e Hst Hfuel; simpl;
    destruct (loop_cond ssml maxLength st) eqn:E; try by eauto.
  - apply loop_body_cases in E as (Hlt & _). lia.
  - pose proof E as (_ & _ & _ & _ & Hw)%loop_cond_true.
    apply loop_body_cases in E as (Hlt & Hadv & Hcase).
    destruct Hcase as [[Hp Hn] | (ch & adv & Hch & Hemit)].
    + apply (IH _ e); [by eapply stored_skip | lia].
    + apply (IH _ (e ++ [ch])); [|lia]. rewrite Hemit. by apply stored_emit.
Qed.

Lemma strlen_stored (e r : list ascii) :
  Forall (fun c => c <> NUL) e -> strlen (e ++ NUL :: r) = length e.
Proof.
  induction 1 as [|c e Hc _ IH]; simpl; [done|].
  apply Ascii.eqb_neq in Hc. by rewrite Hc, IH.
Qed.

(** The result of the extractor when the scan has stored [e]. *)
Lemma extract_result (ssml buf : list ascii) (maxLength : Z) (st : scan)
    (e : list ascii) :
  0 < maxLength -> maxLength <= Z.of_nat (length buf) ->
  ssml_loop (length ssml) ssml maxLength
    {| src := 0; plainText := buf; written := 0; inTag := false |} = Some st ->
  stored buf maxLength e st ->
  dectalk_extract_text_from_ssml (Some ssml) (Some buf) maxLength
    = Some (Z.of_nat (length e), Some (e ++ NUL :: drop (S (length e)) buf)).
Proof.
  intros Hmax Hbuf Hloop (Hp & Hw & Hle & _).
  unfold dectalk_extract_text_from_ssml.
  replace (maxLength <=? 0) with false by (symmetry; apply Z.leb_gt; lia).
  rewrite Hloop, Hp, Hw, Nat2Z.id. by rewrite store_at_end by lia.
Qed.

(** C7.  With [maxLength > 0] and an output array of at least
    [maxLength] characters, the extractor returns a count [n] with
    [n <= maxLength - 1]; the array then holds [n] characters, none of
    them NUL, a NUL right after them, and beyond that what it held
    before; [n] is the length of the string left in the array. *)
Theorem extract_bounded (ssml buf : list ascii) (maxLength : Z) :
  0 < maxLength <= INT32_MAX -> maxLength <= Z.of_nat (length buf) ->
  exists n out,
    dectalk_extract_text_from_ssml (Some ssml) (Some buf) maxLength
      = Some (Z.of_nat n, Some out) /\
    Z.of_nat n <= maxLength - 1 /\
    length out = length buf /\
    Forall (fun c => c <> NUL) (take n out) /\
    out !! n = Some NUL /\
    drop (S n) out = drop (S n) buf /\
    strlen out = n.
Proof.
  intros Hmax Hbuf.
  destruct (ssml_loop_stored ssml buf maxLength (length ssml) _ []
              Hmax Hbuf (stored_start buf maxLength ltac:(lia)))
    as (st & e & Hloop & Hst); [simpl; lia|].
  exists (length e), (e ++ NUL :: drop (S (length e)) buf).
  split; [apply (extract_result _ _ _ st); [lia | done | done | done]|].
  destruct Hst as (_ & _ & Hle & Hnul).
  split; [done|]. split; [|split; [|split; [|split]]].
  - rewrite length_app. simpl. rewrite length_drop. lia.
  - by rewrite take_app_length.
  - by apply list_lookup_middle.
  - change (e ++ NUL :: drop (S (length e)) buf)
      with (e ++ [NUL] ++ drop (S (length e)) buf).
    rewrite app_assoc. apply drop_app_length'. rewrite length_app. simpl. lia.
  - by apply strlen_stored.
Qed.

Lemma extract_bounded_witness :
  exists n out,
    dectalk_extract_text_from_ssml (Some (cstr "<b>too long</b>"))
      (Some (replicate 8 "x"%char)) 4 = Some (Z.of_nat n, Some out) /\
    Z.of_nat n <= 4 - 1 /\
    length out = 8%nat /\
    Forall (fun c => c <> NUL) (take n out) /\
    out !! n = Some NUL /\
    drop (S n) out = drop (S n) (replicate 8 "x"%char) /\
    strlen out = n.
Proof.
  apply (extract_bounded (cstr "<b>too long</b>") (replicate 8 "x"%char) 4).
  - unfold INT32_MAX. lia.
  - simpl. lia.
Defined.

(** *** The pointer scan and the scan by recursion on the text *)

Lemma scan_text_skip (numeric : list ascii -> option (ascii * nat)) (gt : bool)
    (k : nat) (t : bool) (s : list ascii) :
  scan_text numeric gt k t s = scan_text numeric gt 0 t (drop k s).
Proof.
  revert k. induction s as [|c s IH]; intros [|k]; try done.
  simpl drop. rewrite <- IH. done.
Qed.

Lemma strncmp_starts_with (lit p : list ascii) :
  Forall (fun c => c <> NUL) lit ->
  strncmp_eq p lit (length lit) = starts_with lit p.
Proof.
  intros Hlit. revert p. induction Hlit as [|a lit Ha _ IH]; intros p; [done|].
  cbn [length strncmp_eq starts_with].
  destruct p as [|b p]; unfold deref; cbn [hd tl].
  - replace (Ascii.eqb NUL a) with false; [done|].
    symmetry. apply Ascii.eqb_neq. congruence.
  - rewrite (Ascii.eqb_sym a b).
    destruct (Ascii.eqb_spec b a) as [-> | Hne]; [|done].
    apply Ascii.eqb_neq in Ha. rewrite Ha. apply IH.
Qed.

Lemma strchr_index_of (p : list ascii) (c : ascii) :
  Forall (fun x => x <> NUL) p -> c <> NUL -> strchr p c = index_of c p.
Proof.
  intros Hp Hc. induction Hp as [|x p Hx _ IH]; simpl.
  - apply Ascii.eqb_neq in Hc. by rewrite Hc.
  - apply Ascii.eqb_neq in Hx. by rewrite Hx, IH.
Qed.

Lemma literal_not_nul (s : string) :
  forallb (fun c => negb (Ascii.eqb c NUL)) (cstr s) = true ->
  Forall (fun c => c <> NUL) (cstr s).
Proof.
  intros H. apply Forall_forall. intros c Hc%list_elem_of_In.
  rewrite forallb_forall in H. specialize (H c Hc).
  by apply negb_true_iff, Ascii.eqb_neq in H.
Qed.

Lemma strncmp_literal (s : string) (n : nat) (p : list ascii) :
  forallb (fun c => negb (Ascii.eqb c NUL)) (cstr s) = true ->
  length (cstr s) = n ->
  strncmp_eq p (cstr s) n = starts_with (cstr s) p.
Proof. intros H <-. by apply strncmp_starts_with, literal_not_nul. Qed.

(** On a text without NUL the chain of tests of the source decodes
    what the table and the lenient reading of a numeric entity decode. *)
Lemma entity_decode (p : list ascii) :
  Forall (fun c => c <> NUL) p -> entity p = decode lenient_numeric p.
Proof.
  intros Hp. unfold entity, decode, named_entities. cbn [named_entity].
  rewrite (strncmp_literal "&amp;" 5 p eq_refl eq_refl),
    (strncmp_literal "&lt;" 4 p eq_refl eq_refl),
    (strncmp_literal "&gt;" 4 p eq_refl eq_refl),
    (strncmp_literal "&quot;" 6 p eq_refl eq_refl),
    (strncmp_literal "&apos;" 6 p eq_refl eq_refl),
    (strncmp_literal "&#91;" 5 p eq_refl eq_refl),
    (strncmp_literal "&#93;" 5 p eq_refl eq_refl),
    (strncmp_literal "&#58;" 5 p eq_refl eq_refl).
  repeat (destruct (starts_with _ p); [reflexivity|]).
  unfold lenient_numeric.
  destruct p as [|a [|h r]]; cbn [deref hd tl].
  - done.
  - by rewrite andb_false_r.
  - destruct (_ && _); [|done].
    rewrite strchr_index_of by (done || discriminate).
    destruct (index_of _ _) as [semi|]; [|done].
    destruct (sscanf_d r) as [code|]; destruct (semi <? 8)%nat; done.
Qed.

Lemma decode_needs_amp (p : list ascii) :
  Ascii.eqb (deref p) "&" = false -> decode lenient_numeric p = None.
Proof.
  intros H. unfold decode, named_entities. cbn [named_entity].
  assert (Hlit : forall lit, starts_with ("&"%char :: lit) p = false).
  { intros lit. destruct p as [|c p]; [done|]. cbn [starts_with].
    simpl in H. by rewrite Ascii.eqb_sym, H. }
  change (cstr "&amp;") with ("&"%char :: cstr "amp;").
  change (cstr "&lt;") with ("&"%char :: cstr "lt;").
  change (cstr "&gt;") with ("&"%char :: cstr "gt;").
  change (cstr "&quot;") with ("&"%char :: cstr "quot;").
  change (cstr "&apos;") with ("&"%char :: cstr "apos;").
  change (cstr "&#91;") with ("&"%char :: cstr "#91;").
  change (cstr "&#93;") with ("&"%char :: cstr "#93;").
  change (cstr "&#58;") with ("&"%char :: cstr "#58;").
  rewrite !Hlit. unfold lenient_numeric.
  destruct p as [|a [|h r]]; try done. simpl in H. by rewrite H.
Qed.

(** One iteration of the loop is one step of the scan of the text. *)
Lemma loop_body_refines (ssml buf : list ascii) (maxLength : Z) (st : scan)
    (e : list ascii) :
  Forall (fun c => c <> NUL) ssml ->
  0 < maxLength <= INT32_MAX -> maxLength <= Z.of_nat (length buf) ->
  stored buf maxLength e st -> loop_cond ssml maxLength st = true ->
  exists e1,
    stored buf maxLength e1 (loop_body ssml st) /\
    e ++ scan_text lenient_numeric false 0 (inTag st) (drop (src st) ssml)
      = e1 ++ scan_text lenient_numeric false 0 (inTag (loop_body ssml st))
                (drop (src (loop_body ssml st)) ssml).
Proof.
  intros Hnul Hmax Hbuf Hst (c & rest & Hp & Hc & Hw)%loop_cond_true.
  assert (Hnext : forall adv, drop (src st + adv) ssml = drop adv (c :: rest)).
  { intros adv. by rewrite <- drop_drop, Hp. }
  assert (Hrest : drop (S (src st)) ssml = rest).
  { rewrite <- Nat.add_1_r. apply Hnext. }
  assert (Hpn : Forall (fun c => c <> NUL) (c :: rest)).
  { rewrite <- Hp. by apply Forall_drop. }
  unfold loop_body. rewrite Hp. cbn [deref hd scan_text].
  destruct (Ascii.eqb c "<").
  { exists e. cbn [src inTag]. rewrite Hrest. split; [by eapply stored_skip | done]. }
  destruct (Ascii.eqb c ">").
  { exists e. cbn [src inTag]. rewrite Hrest, orb_true_r.
    split; [by eapply stored_skip | done]. }
  destruct (inTag st) eqn:Htag; cbn [negb].
  { exists e. cbn [src inTag]. rewrite Hrest.
    split; [by eapply stored_skip | done]. }
  replace (if Ascii.eqb c "&" then entity (c :: rest) else None)
    with (decode lenient_numeric (c :: rest)).
  2:{ destruct (Ascii.eqb c "&") eqn:Ec.
      - symmetry. by apply entity_decode.
      - by apply decode_needs_amp. }
  destruct (decode lenient_numeric (c :: rest)) as [[ch adv]|] eqn:Ed.
  - rewrite <- entity_decode in Ed by done.
    apply entity_advance in Ed as [Hch Hadv].
    exists (e ++ [ch]). split; [by apply stored_emit|].
    cbn [emit src inTag]. rewrite Hnext, Htag, scan_text_skip, <- app_assoc.
    destruct adv as [|adv]; [lia|]. done.
  - exists (e ++ [c]). split; [by apply stored_emit|].
    cbn [emit src inTag]. rewrite Hnext, Htag, <- app_assoc. done.
Qed.

(** When the loop test fails the text stored is the text scanned, cut
    at [maxLength - 1] characters. *)
Lemma loop_exit_refines (ssml buf : list ascii) (maxLength : Z) (st : scan)
    (e : list ascii) (t : bool) :
  Forall (fun c => c <> NUL) ssml -> 0 < maxLength <= INT32_MAX ->
  stored buf maxLength e st -> loop_cond ssml maxLength st = false ->
  take (Z.to_nat (maxLength - 1))
    (e ++ scan_text lenient_numeric false 0 t (drop (src st) ssml)) = e.
Proof.
  intros Hnul Hmax (_ & Hw & Hle & _) [Hend | Hfull]%andb_false_iff.
  - apply negb_false_iff, Ascii.eqb_eq in Hend.
    pose proof (Forall_drop _ (src st) _ Hnul) as Hp.
    destruct (drop (src st) ssml) as [|c rest].
    + simpl. rewrite app_nil_r. apply take_ge. lia.
    + simpl in Hend. by apply Forall_cons in Hp as [Hc _].
  - apply Z.ltb_ge in Hfull.
    rewrite int32_id in Hfull by (unfold INT32_MIN, INT32_MAX in *; lia).
    apply take_app_length'. lia.
Qed.

Lemma ssml_loop_refines (ssml buf : list ascii) (maxLength : Z) (fuel : nat)
    (st : scan) (e : list ascii) :
  Forall (fun c => c <> NUL) ssml ->
  0 < maxLength <= INT32_MAX -> maxLength <= Z.of_nat (length buf) ->
  stored buf maxLength e st -> (length ssml - src st <= fuel)%nat ->
  exists st', ssml_loop fuel ssml maxLength st = Some st' /\
    stored buf maxLength
      (take (Z.to_nat (maxLength - 1))
         (e ++ scan_text lenient_numeric false 0 (inTag st) (drop (src st) ssml)))
      st'.
Proof.
  intros Hnul Hmax Hbuf. revert st e.
  induction fuel as [|fuel IH]; intros st e Hst Hfuel; simpl;
    destruct (loop_cond ssml maxLength st) eqn:E.
  - apply loop_body_cases in E as (Hlt & _). lia.
  - exists st. split; [done|]. by rewrite (loop_exit_refines ssml buf).
  - destruct (loop_body_refines ssml buf maxLength st e) as (e1 & Hst1 & ->);
      try done.
    apply IH; [done|]. apply loop_body_cases in E as (? & ? & _). lia.
  - exists st. split; [done|]. by rewrite (loop_exit_refines ssml buf).
Qed.

(** *** The two readings of a numeric entity *)

Lemma digit_is_plain (c : ascii) :
  isdigit c = true ->
  isspace c = false /\ Ascii.eqb c "-" = false /\ Ascii.eqb c "+" = false /\
  Ascii.eqb c ";" = false.
Proof. destruct c as [[] [] [] [] [] [] [] []]; done. Qed.

Lemma scan_digits_leading (acc : Z) (r : list ascii) :
  scan_digits acc (leading_digits r) = scan_digits acc r.
Proof.
  revert acc. induction r as [|c r IH]; intros acc; simpl; [done|].
  destruct (isdigit c) eqn:E; simpl; [|done]. by rewrite E, IH.
Qed.

Lemma index_of_after_digits (r : list ascii) :
  deref (drop (length (leading_digits r)) r) = ";"%char ->
  index_of ";" r = Some (length (leading_digits r)).
Proof.
  induction r as [|c r IH]; simpl; [done|].
  destruct (isdigit c) eqn:E; simpl.
  - intros H. apply digit_is_plain in E as (_ & _ & _ & ->). by rewrite IH.
  - intros ->. done.
Qed.

(** An entity the strict reading decodes is decoded by the source, to
    the same character and over the same characters of input. *)
Lemma strict_numeric_lenient (p : list ascii) (r : ascii * nat) :
  strict_numeric p = Some r -> lenient_numeric p = Some r.
Proof.
  unfold strict_numeric, lenient_numeric.
  destruct p as [|a [|h t]]; try done.
  set (ds := leading_digits t).
  destruct (Ascii.eqb a "&" && Ascii.eqb h "#") eqn:Eamp; [|done]. simpl.
  destruct (Nat.eqb_spec (length ds) 0) as [|Hds]; [done|]. simpl.
  destruct (Ascii.eqb_spec (deref (drop (length ds) t)) ";") as [Hsemi|]; [|done].
  simpl. intros H.
  apply andb_true_iff in Eamp as [Ea Eh].
  apply Ascii.eqb_eq in Ea, Eh. subst a h. simpl.
  rewrite (index_of_after_digits t Hsemi). simpl. fold ds.
  assert (Hscan : sscanf_d t = Some (scan_digits 0 ds)).
  { subst ds. destruct t as [|d t]; [done|]. simpl in Hds |- *.
    destruct (isdigit d) eqn:Ed; [|done].
    unfold sscanf_d. simpl.
    destruct (digit_is_plain d Ed) as (-> & -> & -> & _). simpl.
    rewrite Ed. by rewrite scan_digits_leading. }
  rewrite Hscan. exact H.
Qed.

(** C3 as stated: the output is the text of the document's scan.  It is
    not on an input with a '>' outside a tag and numeric entities that
    have a letter before the ';', a blank or a sign after the '#'. *)
Lemma extract_is_not_spec_extract :
  ~ extracts spec_extract (cstr "1>0 &#65x;&# 66;&#+67;") (replicate 32 "x"%char) 32.
Proof. unfold extracts. vm_compute. discriminate. Qed.

(** C3, amended.  For an input string (no NUL inside), a positive
    [maxLength] and an array of at least [maxLength] characters, the
    extractor stores the first [maxLength - 1] characters of
    [source_extract ssml], then a NUL, and returns their number, where
    [source_extract] is the single left-to-right scan that drops every
    '<' and every '>' and all characters of a tag, decodes the eight
    listed entities, decodes ['&#'] read by a [%d] conversion to a code
    with [0 < code < 256] whose first ';' is among the first 8
    characters (consuming up to the ';'), and otherwise copies the
    character, a '&' included, and resumes at the next one. *)
Theorem extract_refines_source_extract (ssml buf : list ascii) (maxLength : Z) :
  Forall (fun c => c <> NUL) ssml ->
  0 < maxLength <= INT32_MAX -> maxLength <= Z.of_nat (length buf) ->
  extracts source_extract ssml buf maxLength /\
  (forall p r, decode strict_numeric p = Some r -> decode lenient_numeric p = Some r).
Proof.
  intros Hnul Hmax Hbuf. split.
  2:{ intros p r. unfold decode. destruct (named_entity _ p); [done|].
      apply strict_numeric_lenient. }
  unfold extracts, source_extract.
  destruct (ssml_loop_refines ssml buf maxLength (length ssml) _ []
              Hnul Hmax Hbuf (stored_start buf maxLength ltac:(lia)))
    as (st & Hloop & Hst); [simpl; lia|].
  simpl in Hst. rewrite drop_0 in Hst.
  apply (extract_result _ _ _ st); [lia | done | done | done].
Qed.

Lemma extract_refines_source_extract_witness :
  extracts source_extract (cstr "1>0 &#65x;&# 66;&#+67;") (replicate 32 "x"%char) 32.
Proof.
  apply (extract_refines_source_extract (cstr "1>0 &#65x;&# 66;&#+67;")
           (replicate 32 "x"%char) 32).
  - apply literal_not_nul. reflexivity.
  - unfold INT32_MAX. lia.
  - simpl. lia.
Defined.

(** *** The examples of the design document (section 8) *)

Example extract_speak :
  extract 64 "<speak>Hello &amp; welcome</speak>" = Some "Hello & welcome"%string.
Proof. reflexivity. Qed.

Example extract_brackets : extract 64 "A&#91;B&#93;C" = Some "A[B]C"%string.
Proof. reflexivity. Qed.

Example extract_out_of_range : extract 64 "X&#999;Y" = Some "X&#999;Y"%string.
Proof. reflexivity. Qed.

Example extract_truncates : extract 5 "abcdefgh" = Some "abcd"%string.
Proof. reflexivity. Qed.

Example extract_lenient : extract 64 "1>0 &#65x;&# 66;&#+67;" = Some "10 ABC"%string.
Proof. reflexivity. Qed.

End SsmlFacts.
